(** * Bytecode data providers (hermes/BCGen/HBC/BytecodeDataProvider.h)

    A shallow embedding of [RuntimeFunctionHeader], [BCProviderBase] and
    [BCProviderFromBuffer].  Pointers are integers ([Z]) into one flat address
    space; reading a structure through a pointer is a typed load from a
    [Memory].  A failed [assert] is the result [None].  Pointer arithmetic is
    unbounded (overflowing it is undefined in the source); [uint32_t]
    arithmetic that the source performs is written with [wrap32]. *)

From Stdlib Require Import ZArith List Bool String Lia.
Import ListNotations.
Open Scope Z_scope.

Set Implicit Arguments.

(** ** Machine integers *)

Definition wrap32 (z : Z) : Z := z mod 2 ^ 32.

(** Conversion of a [uint32_t] value to [int32_t]. *)
Definition toInt32 (z : Z) : Z :=
  let w := wrap32 z in if w <? 2 ^ 31 then w else w - 2 ^ 32.

(** ** Assertions *)

Definition assert (c : bool) : option unit := if c then Some tt else None.

Notation "x <- c ;; k" := (match c with Some x => k | None => None end)
  (at level 61, c at next level, right associativity).
Notation "'check' c ;; k" := (match assert c with Some _ => k | None => None end)
  (at level 61, c at next level, right associativity).

(** ** Views *)

(** [llvm::ArrayRef<T>]: a base pointer and an element count. *)
Module ArrayRef.
Record t := make { data : Z; size : Z }.
Definition begin (a : t) : Z := data a.
End ArrayRef.

(** [llvm::StringRef]: a base pointer and a byte length. *)
Module StringRef.
Record t := make { Data : Z; Length : Z }.
End StringRef.

(** [hermes::Buffer] (hermes/Public/Buffer.h): an owned, contiguous,
    read-only byte range, seen through [data()] and [size()]. *)
Module Buffer.
Record t := make { data : Z; size : Z }.
End Buffer.

(** ** Structures of the file format

    BytecodeFileFormat.h and StringTableEntry.h are outside this tree; the
    members the provider touches are listed here under the names the provider
    uses for them. *)

Module SmallStringTableEntry.
Record t := make { isUTF16 : bool; isIdentifier : bool; offset : Z; length : Z }.
End SmallStringTableEntry.

Module OverflowStringTableEntry.
Record t := make { offset : Z; length : Z }.
End OverflowStringTableEntry.

(** Modelled from the spec: [StringTableEntry] (hermes/Support/StringTableEntry.h
    is missing), the logical descriptor of a string: byte offset into the
    string storage, byte length, UTF-16-vs-narrow flag, identifier flag.  The
    three-argument constructor leaves the identifier flag clear and
    [markAsIdentifier] sets it. *)
Module StringTableEntry.
Record t := Build { getOffset : Z; getLength : Z; isUTF16 : bool; isIdentifier : bool }.
Definition make (offset length : Z) (utf16 : bool) : t :=
    {| getOffset := offset; getLength := length; isUTF16 := utf16; isIdentifier := false |}.
Definition markAsIdentifier (e : t) : t :=
    {| getOffset := getOffset e; getLength := getLength e; isUTF16 := isUTF16 e;
       isIdentifier := true |}.
End StringTableEntry.

(** Modelled from the spec: [HBCExceptionHandlerInfo] (BytecodeFileFormat.h is
    missing), a handler record: start offset, end offset, target offset. *)
Module HBCExceptionHandlerInfo.
Record t := make { start : Z; end_ : Z; target : Z }.
End HBCExceptionHandlerInfo.

(** What the provider needs from BytecodeFileFormat.h: the field list
    [FUNC_HEADER_FIELDS] (with [flags] added, as the accessor macro is applied
    to it too), the two physical header shapes with a reader per field, the
    members of [SmallFuncHeader] and [SmallStringTableEntry] that the provider
    calls, the sizes entering its pointer arithmetic, and the magic number. *)
Class FileFormat := {
  field : Type;
  offset : field;
  bytecodeSizeInBytes : field;
  SmallFuncHeader : Type;
  FunctionHeader : Type;
  small_field : SmallFuncHeader -> field -> Z;
  large_field : FunctionHeader -> field -> Z;
  flags_overflowed : SmallFuncHeader -> bool;
  getLargeHeaderOffset : SmallFuncHeader -> Z;
  sizeof_SmallFuncHeader : Z;
  isOverflowed : SmallStringTableEntry.t -> bool;
  sizeof_SmallStringTableEntry : Z;
  sizeof_OverflowStringTableEntry : Z;
  sizeof_BytecodeFileHeader : Z;
  MAGIC : Z
}.

(** The address space: what a typed read through a pointer yields.  Reads are
    total: a read outside the buffer is undefined in the source and the
    provider does not check for it, so the properties below are stated for
    the indices whose records the buffer holds. *)
Record Memory `{FileFormat} := {
  load_SmallFuncHeader : Z -> SmallFuncHeader;
  load_FunctionHeader : Z -> FunctionHeader;
  load_SmallStringTableEntry : Z -> SmallStringTableEntry.t;
  load_OverflowStringTableEntry : Z -> OverflowStringTableEntry.t;
  load_magic : Z -> Z;          (* ((const BytecodeFileHeader * ) p)->magic *)
  load_char : Z -> Z
}.

(** ** RuntimeFunctionHeader *)

Module RuntimeFunctionHeader.
Section WithMemory.
Context `{FileFormat} (mem : Memory).

(** Tagged [ptr_] refers to a large header. *)
Record t := Build { ptr_ : Z }.

Definition isLarge (h : t) : bool := negb (Z.land (ptr_ h) 1 =? 0).

Definition ofSmall (smallHeader : Z) : option t :=
  let h := {| ptr_ := smallHeader |} in
  check negb (isLarge h) ;; Some h.

Definition ofLarge (large : Z) : option t :=
  let h := {| ptr_ := large + 1 |} in
  check isLarge h ;; Some h.

(** The address each shape is read at. *)
Definition asSmall (h : t) : option Z :=
  check negb (isLarge h) ;; Some (ptr_ h).

Definition asLarge (h : t) : option Z :=
  check isLarge h ;; Some (ptr_ h - 1).

(** [HEADER_FIELD_ACCESSOR]: one accessor per field name. *)
Definition get (name : field) (h : t) : option Z :=
  if isLarge h then
    p <- asLarge h ;; Some (large_field (load_FunctionHeader mem p) name)
  else
    p <- asSmall h ;; Some (small_field (load_SmallFuncHeader mem p) name).

End WithMemory.
End RuntimeFunctionHeader.

(** ** BCProviderBase *)

Module BCProviderBase.

(** The data members the modelled operations read. *)
Record t := Build {
  functionCount_ : Z;
  globalFunctionIndex_ : Z;
  stringCount_ : Z;
  stringStorage_ : ArrayRef.t;
  debugInfo_ : Z;               (* null is 0 *)
  errstr_ : string
}.

Definition set_debugInfo (d : Z) (b : t) : t :=
  {| functionCount_ := functionCount_ b;
     globalFunctionIndex_ := globalFunctionIndex_ b;
     stringCount_ := stringCount_ b;
     stringStorage_ := stringStorage_ b;
     debugInfo_ := d;
     errstr_ := errstr_ b |}.

(** The pure virtual member functions: a concrete provider of type [P]
    supplies them together with its base sub-object. *)
Class Provider `{FileFormat} (P : Type) := {
  base : P -> t;
  createDebugInfo : P -> P;
  getStringTableEntry : P -> Z -> StringTableEntry.t;
  getFunctionHeader : P -> Z -> option RuntimeFunctionHeader.t;
  getBytecode : P -> Z -> option Z;
  getExceptionTable : P -> Z -> list HBCExceptionHandlerInfo.t;
  getDebugOffsets : P -> Z -> Z;
  isFunctionLazy : P -> Z -> bool;
  isLazy : P -> bool
}.

Section Methods.
Context `{FileFormat} (mem : Memory) {P : Type} `{!Provider P}.

Definition getFunctionCount (p : P) : Z := functionCount_ (base p).
Definition getStringCount (p : P) : Z := stringCount_ (base p).
Definition getStringStorage (p : P) : ArrayRef.t := stringStorage_ (base p).
Definition getErrorStr (p : P) : string := errstr_ (base p).

Definition getStringRefFromID (p : P) (stringID : Z) : StringRef.t :=
  let entry := getStringTableEntry p stringID in
  StringRef.make
    (ArrayRef.begin (getStringStorage p) + StringTableEntry.getOffset entry)
    (StringTableEntry.getLength entry).

(** Get the global debug info, lazily create it.  The member function is
    [const] and casts the qualifier away to run the hook, so the object after
    the call is part of the result. *)
Definition getDebugInfo (p : P) : Z * P :=
  let p' := if debugInfo_ (base p) =? 0 then createDebugInfo p else p in
  (debugInfo_ (base p'), p').

(** [n] calls in a row: the pointers returned, oldest first, and the object
    left behind. *)
Fixpoint getDebugInfo_times (n : nat) (p : P) : list Z * P :=
  match n with
  | O => ([], p)
  | S n' =>
      let '(d, p1) := getDebugInfo p in
      let '(ds, p2) := getDebugInfo_times n' p1 in
      (d :: ds, p2)
  end.

Definition covers (exceptionOffset : Z) (h : HBCExceptionHandlerInfo.t) : bool :=
  (HBCExceptionHandlerInfo.start h <=? exceptionOffset)
  && (exceptionOffset <? HBCExceptionHandlerInfo.end_ h).

(** Modelled from the spec: the body of [findCatchTargetOffset]
    (BytecodeDataProvider.cpp is missing).  It scans the function's handler
    records in table order and keeps the target of the latest record whose
    range [start, end) holds the fault offset, starting from the sentinel -1.
    The declaration gives the result type [int32_t]. *)
Fixpoint findCatchTargetOffset_scan (exceptions : list HBCExceptionHandlerInfo.t)
    (exceptionOffset : Z) (found : Z) : Z :=
  match exceptions with
  | [] => found
  | h :: rest =>
      findCatchTargetOffset_scan rest exceptionOffset
        (if covers exceptionOffset h
         then toInt32 (HBCExceptionHandlerInfo.target h) else found)
  end.

Definition findCatchTargetOffset (p : P) (functionID exceptionOffset : Z) : Z :=
  findCatchTargetOffset_scan (getExceptionTable p functionID) exceptionOffset (-1).

(** Modelled from the spec: the body of [getVirtualOffsetForFunction]
    (BytecodeDataProvider.cpp is missing).  It accumulates, in a [uint32_t],
    the bytecode byte length of every function with a smaller index, read
    through the header accessor. *)
Fixpoint getVirtualOffsetForFunction_loop (p : P) (count : nat) (i : Z)
    (virtualOffset : Z) : option Z :=
  match count with
  | O => Some virtualOffset
  | S count' =>
      h <- getFunctionHeader p i ;;
      size <- RuntimeFunctionHeader.get mem bytecodeSizeInBytes h ;;
      getVirtualOffsetForFunction_loop p count' (i + 1) (wrap32 (virtualOffset + size))
  end.

Definition getVirtualOffsetForFunction (p : P) (functionID : Z) : option Z :=
  getVirtualOffsetForFunction_loop p (Z.to_nat functionID) 0 0.

End Methods.

(** A provider that counts how often its construction hook runs. *)
Record Counted (P : Type) := { obj : P; hookCalls : nat }.

#[export] Instance Counted_Provider `{FileFormat} (P : Type) `{!Provider P} :
  Provider (Counted P) := {
  base c := base (obj c);
  createDebugInfo c := {| obj := createDebugInfo (obj c); hookCalls := S (hookCalls c) |};
  getStringTableEntry c := getStringTableEntry (obj c);
  getFunctionHeader c := getFunctionHeader (obj c);
  getBytecode c := getBytecode (obj c);
  getExceptionTable c := getExceptionTable (obj c);
  getDebugOffsets c := getDebugOffsets (obj c);
  isFunctionLazy c := isFunctionLazy (obj c);
  isLazy c := isLazy (obj c)
}.

End BCProviderBase.

(** ** BCProviderFromBuffer *)

Module BCProviderFromBuffer.

Record t := Build {
  base_ : BCProviderBase.t;
  buffer_ : Buffer.t;           (* the continuous bytecode buffer *)
  bufferPtr_ : Z;               (* buffer_->data() *)
  functionHeaders_ : Z;         (* list of function headers *)
  stringTableEntries_ : Z;      (* compact part, followed by overflow ones *)
  debugInfoOffset_ : Z
}.

(** A table region declared by the file header: byte offset from the start of
    the buffer and byte size. *)
Record TableExtent := { extent_offset : Z; extent_size : Z }.

(** The member functions defined in BytecodeDataProvider.cpp, which is not in
    this tree, as far as the inline ones depend on them: how the constructor
    fills the members of an accepted buffer, which table regions the file
    header of a byte view declares, the debug-info hook and the joint lookup of
    exception table and debug offsets. *)
Class OutOfLine `{FileFormat} := {
  populate : Memory -> Buffer.t -> t;
  declaredTables : Memory -> ArrayRef.t -> list TableExtent;
  createDebugInfo_ : t -> t;
  getExceptionTableAndDebugOffsets : Memory -> t -> Z -> list HBCExceptionHandlerInfo.t * Z
}.

Section Methods.
Context `{FileFormat} `{!OutOfLine} (mem : Memory).

Definition stringCount_ (p : t) : Z := BCProviderBase.stringCount_ (base_ p).

Definition getFunctionHeader (p : t) (functionID : Z) : option RuntimeFunctionHeader.t :=
  let smallHeader_addr := functionHeaders_ p + functionID * sizeof_SmallFuncHeader in
  let smallHeader := load_SmallFuncHeader mem smallHeader_addr in
  if flags_overflowed smallHeader then
    let large := bufferPtr_ p + getLargeHeaderOffset smallHeader in
    RuntimeFunctionHeader.ofLarge large
  else
    RuntimeFunctionHeader.ofSmall smallHeader_addr.

Definition getStringTableEntry (p : t) (index : Z) : StringTableEntry.t :=
  let smallHeader :=
    load_SmallStringTableEntry mem
      (stringTableEntries_ p + index * sizeof_SmallStringTableEntry) in
  if isOverflowed smallHeader then
    let overflowBase :=
      stringTableEntries_ p + stringCount_ p * sizeof_SmallStringTableEntry in
    let overflow :=
      load_OverflowStringTableEntry mem
        (overflowBase
         + SmallStringTableEntry.offset smallHeader * sizeof_OverflowStringTableEntry) in
    let entry :=
      StringTableEntry.make (OverflowStringTableEntry.offset overflow)
        (OverflowStringTableEntry.length overflow)
        (SmallStringTableEntry.isUTF16 smallHeader) in
    if SmallStringTableEntry.isIdentifier smallHeader
    then StringTableEntry.markAsIdentifier entry
    else entry
  else
    let entry :=
      StringTableEntry.make (SmallStringTableEntry.offset smallHeader)
        (SmallStringTableEntry.length smallHeader)
        (SmallStringTableEntry.isUTF16 smallHeader) in
    if SmallStringTableEntry.isIdentifier smallHeader
    then StringTableEntry.markAsIdentifier entry
    else entry.

Definition getBytecode (p : t) (functionID : Z) : option Z :=
  h <- getFunctionHeader p functionID ;;
  o <- RuntimeFunctionHeader.get mem offset h ;;
  Some (bufferPtr_ p + o).

Definition getExceptionTable (p : t) (functionID : Z) : list HBCExceptionHandlerInfo.t :=
  fst (getExceptionTableAndDebugOffsets mem p functionID).

Definition getDebugOffsets (p : t) (functionID : Z) : Z :=
  snd (getExceptionTableAndDebugOffsets mem p functionID).

Definition isFunctionLazy (p : t) (functionID : Z) : bool := false.

Definition isLazy (p : t) : bool := false.

(** Checks whether the data is actually bytecode.  [&&] evaluates its right
    operand only when the left one holds, as [andb] on these total reads. *)
Definition isBytecodeStream (aref : ArrayRef.t) : bool :=
  let header := ArrayRef.data aref in
  (ArrayRef.size aref >=? sizeof_BytecodeFileHeader)
  && (load_magic mem header =? MAGIC).

(** Checks whether the buffer is actually bytecode. *)
Definition isBytecodeStream_Buffer (buffer : Buffer.t) : bool :=
  isBytecodeStream (ArrayRef.make (Buffer.data buffer) (Buffer.size buffer)).

(** Returns the arrayref to small function headers; this is also the start
    of the function header section. *)
Definition getSmallFunctionHeaders (p : t) : ArrayRef.t :=
  ArrayRef.make (functionHeaders_ p) (BCProviderBase.functionCount_ (base_ p)).

(** Returns the arrayref to the small string table entries; this is also the
    start of the string table section. *)
Definition getSmallStringTableEntries (p : t) : ArrayRef.t :=
  ArrayRef.make (stringTableEntries_ p) (stringCount_ p).

(** The overrides of the virtual member functions. *)
#[export] Instance FromBuffer_Provider : BCProviderBase.Provider t := {
  BCProviderBase.base := base_;
  BCProviderBase.createDebugInfo := createDebugInfo_;
  BCProviderBase.getStringTableEntry := getStringTableEntry;
  BCProviderBase.getFunctionHeader := getFunctionHeader;
  BCProviderBase.getBytecode := getBytecode;
  BCProviderBase.getExceptionTable := getExceptionTable;
  BCProviderBase.getDebugOffsets := getDebugOffsets;
  BCProviderBase.isFunctionLazy := isFunctionLazy;
  BCProviderBase.isLazy := isLazy
}.

(** The inherited member functions, their virtual calls resolved to the
    overrides above. *)
Definition getStringRefFromID (p : t) (stringID : Z) : StringRef.t :=
  BCProviderBase.getStringRefFromID p stringID.

Definition getDebugInfo (p : t) : Z * t :=
  BCProviderBase.getDebugInfo p.

Definition findCatchTargetOffset (p : t) (functionID exceptionOffset : Z) : Z :=
  BCProviderBase.findCatchTargetOffset p functionID exceptionOffset.

Definition getVirtualOffsetForFunction (p : t) (functionID : Z) : option Z :=
  BCProviderBase.getVirtualOffsetForFunction mem p functionID.

Definition fits (aref : ArrayRef.t) (e : TableExtent) : bool :=
  (0 <=? extent_offset e) && (0 <=? extent_size e)
  && (extent_offset e + extent_size e <=? ArrayRef.size aref).

(** Modelled from the spec: [bytecodeStreamSanityCheck]
    (BytecodeDataProvider.cpp is missing).  It accepts a byte view, rejects one
    shorter than the file header, one whose magic differs from the constant,
    and one whose declared table regions do not fit in the view; the second
    component is the diagnostic written through [errorMessage]. *)
Definition bytecodeStreamSanityCheck (aref : ArrayRef.t) : bool * string :=
  if ArrayRef.size aref <? sizeof_BytecodeFileHeader then
    (false, "Buffer smaller than a bytecode file header"%string)
  else if negb (load_magic mem (ArrayRef.data aref) =? MAGIC) then
    (false, "Incorrect magic number"%string)
  else if negb (forallb (fits aref) (declaredTables mem aref)) then
    (false, "Table offset or size out of range"%string)
  else (true, EmptyString).

Definition set_errstr (msg : string) (p : t) : t :=
  {| base_ :=
       {| BCProviderBase.functionCount_ := BCProviderBase.functionCount_ (base_ p);
          BCProviderBase.globalFunctionIndex_ := BCProviderBase.globalFunctionIndex_ (base_ p);
          BCProviderBase.stringCount_ := BCProviderBase.stringCount_ (base_ p);
          BCProviderBase.stringStorage_ := BCProviderBase.stringStorage_ (base_ p);
          BCProviderBase.debugInfo_ := BCProviderBase.debugInfo_ (base_ p);
          BCProviderBase.errstr_ := msg |};
     buffer_ := buffer_ p;
     bufferPtr_ := bufferPtr_ p;
     functionHeaders_ := functionHeaders_ p;
     stringTableEntries_ := stringTableEntries_ p;
     debugInfoOffset_ := debugInfoOffset_ p |}.

(** The object as the member initialisers leave it before the constructor
    body runs: every base member value-initialised, the buffer taken over. *)
Definition initial (buffer : Buffer.t) : t :=
  {| base_ :=
       {| BCProviderBase.functionCount_ := 0;
          BCProviderBase.globalFunctionIndex_ := 0;
          BCProviderBase.stringCount_ := 0;
          BCProviderBase.stringStorage_ := ArrayRef.make 0 0;
          BCProviderBase.debugInfo_ := 0;
          BCProviderBase.errstr_ := EmptyString |};
     buffer_ := buffer;
     bufferPtr_ := Buffer.data buffer;
     functionHeaders_ := 0;
     stringTableEntries_ := 0;
     debugInfoOffset_ := 0 |}.

(** Modelled from the spec: the private constructor
    (BytecodeDataProvider.cpp is missing).  It validates the buffer and, on
    any violation, leaves the diagnostic in [errstr_] and locates nothing;
    otherwise it locates the tables and leaves [errstr_] empty. *)
Definition construct (buffer : Buffer.t) : t :=
  let aref := ArrayRef.make (Buffer.data buffer) (Buffer.size buffer) in
  match bytecodeStreamSanityCheck aref with
  | (false, msg) => set_errstr msg (initial buffer)
  | (true, _) => set_errstr EmptyString (populate mem buffer)
  end.

(** [std::unique_ptr] is [option]: [None] is [nullptr]. *)
Definition createBCProviderFromBuffer (buffer : Buffer.t) : option t * string :=
  let ret := construct buffer in
  let errstr := BCProviderBase.getErrorStr ret in
  (if (String.length errstr =? 0)%nat then Some ret else None, errstr).

End Methods.
End BCProviderFromBuffer.

(** ** What a buffer encodes *)

Section Encoding.
Context `{FileFormat} (mem : Memory).

(** The logical header of a function: a value per field name. *)
Definition LogicalHeader : Type := field -> Z.

Definition slotAddress (p : BCProviderFromBuffer.t) (i : Z) : Z :=
  BCProviderFromBuffer.functionHeaders_ p + i * sizeof_SmallFuncHeader.

(** The address of the large record that an overflowed slot resolves to. *)
Definition largeAddress (p : BCProviderFromBuffer.t) (i : Z) : Z :=
  BCProviderFromBuffer.bufferPtr_ p
  + getLargeHeaderOffset (load_SmallFuncHeader mem (slotAddress p i)).

(** The address of the compact string slot [index], and of the overflow slot
    that slot designates through its offset field. *)
Definition stringSlotAddress (p : BCProviderFromBuffer.t) (index : Z) : Z :=
  BCProviderFromBuffer.stringTableEntries_ p + index * sizeof_SmallStringTableEntry.

Definition overflowSlotAddress (p : BCProviderFromBuffer.t) (index : Z) : Z :=
  BCProviderFromBuffer.stringTableEntries_ p
  + BCProviderFromBuffer.stringCount_ p * sizeof_SmallStringTableEntry
  + SmallStringTableEntry.offset
      (load_SmallStringTableEntry mem (stringSlotAddress p index))
    * sizeof_OverflowStringTableEntry.

(** One past the last byte of a view whose elements take [elem] bytes. *)
Definition viewEnd (a : ArrayRef.t) (elem : Z) : Z :=
  ArrayRef.data a + ArrayRef.size a * elem.

(** Function [i] is encoded with logical values [v]: in the compact shape the
    slot itself stores them; in the overflow shape the slot has its overflow
    flag set and the large record it resolves to stores them.  Both records
    lie at even addresses. *)
Inductive backs (p : BCProviderFromBuffer.t) (i : Z) (v : LogicalHeader) : Prop :=
| backs_compact :
    flags_overflowed (load_SmallFuncHeader mem (slotAddress p i)) = false ->
    Z.even (slotAddress p i) = true ->
    (forall name,
        small_field (load_SmallFuncHeader mem (slotAddress p i)) name = v name) ->
    backs p i v
| backs_overflow :
    flags_overflowed (load_SmallFuncHeader mem (slotAddress p i)) = true ->
    Z.even (largeAddress p i) = true ->
    (forall name,
        large_field (load_FunctionHeader mem (largeAddress p i)) name = v name) ->
    backs p i v.

Definition Encoded (p : BCProviderFromBuffer.t) (headers : list LogicalHeader) : Prop :=
  BCProviderBase.functionCount_ (BCProviderFromBuffer.base_ p)
    = Z.of_nat (List.length headers)
  /\ forall i v, nth_error headers i = Some v -> backs p (Z.of_nat i) v.

(** Sum of the bytecode byte lengths of a list of functions. *)
Definition totalBytecodeSize (headers : list LogicalHeader) : Z :=
  fold_right (fun v acc => v bytecodeSizeInBytes + acc) 0 headers.

(** The bytes a view of [n] chars at address [a] ranges over. *)
Definition bytesAt (a n : Z) : list Z :=
  map (fun k => load_char mem (a + Z.of_nat k)) (seq 0 (Z.to_nat n)).

(** A buffer that construction must refuse. *)
Definition malformed `{!BCProviderFromBuffer.OutOfLine} (buffer : Buffer.t) : Prop :=
  let aref := ArrayRef.make (Buffer.data buffer) (Buffer.size buffer) in
  Buffer.size buffer < sizeof_BytecodeFileHeader
  \/ load_magic mem (Buffer.data buffer) <> MAGIC
  \/ exists e, In e (BCProviderFromBuffer.declaredTables mem aref)
               /\ BCProviderFromBuffer.fits aref e = false.

End Encoding.

(** ** A sample file

    Three functions with bytecode lengths 50, 30 and 20; the second has 200
    parameters and is stored in the overflow shape.  Two strings, the second
    through the overflow table.  Function 0 has three nested handlers. *)

Module Sample.

Inductive Field :=
| f_offset | f_paramCount | f_bytecodeSizeInBytes | f_infoOffset
| f_frameSize | f_environmentSize | f_flags.

Definition header (off params size info frame env flags : Z) (name : Field) : Z :=
  match name with
  | f_offset => off
  | f_paramCount => params
  | f_bytecodeSizeInBytes => size
  | f_infoOffset => info
  | f_frameSize => frame
  | f_environmentSize => env
  | f_flags => flags
  end.

#[export] Instance format : FileFormat := {
  field := Field;
  offset := f_offset;
  bytecodeSizeInBytes := f_bytecodeSizeInBytes;
  SmallFuncHeader := Field -> Z;
  FunctionHeader := Field -> Z;
  small_field s name := s name;
  large_field l name := l name;
  flags_overflowed s := Z.testbit (s f_flags) 5;
  getLargeHeaderOffset s := Z.lor (Z.shiftl (s f_infoOffset) 16) (s f_offset);
  sizeof_SmallFuncHeader := 16;
  isOverflowed s := SmallStringTableEntry.length s =? 255;
  sizeof_SmallStringTableEntry := 4;
  sizeof_OverflowStringTableEntry := 8;
  sizeof_BytecodeFileHeader := 128;
  MAGIC := 2240826417119764422
}.

Definition logical0 : LogicalHeader := header 700 1 50 900 4 0 2.
Definition logical1 : LogicalHeader := header 750 200 30 600 9 1 34.
Definition logical2 : LogicalHeader := header 780 0 20 960 2 0 2.
Definition headers : list LogicalHeader := [logical0; logical1; logical2].

(** The compact slot of function 1: overflow flag set, the offset 600 of the
    large record split over [offset] and [infoOffset]. *)
Definition slot1 : Field -> Z := header 600 0 0 0 0 0 34.

Definition nothing : Field -> Z := fun _ => 0.

Definition memory : Memory := {|
  load_SmallFuncHeader a :=
    if a =? 4224 then logical0
    else if a =? 4240 then slot1
    else if a =? 4256 then logical2
    else nothing;
  load_FunctionHeader a := if a =? 4696 then logical1 else nothing;
  load_SmallStringTableEntry a :=
    if a =? 4400 then SmallStringTableEntry.make false true 0 5
    else if a =? 4404 then SmallStringTableEntry.make true true 0 255
    else SmallStringTableEntry.make false false 0 0;
  load_OverflowStringTableEntry a :=
    if a =? 4408 then OverflowStringTableEntry.make 5 300
    else OverflowStringTableEntry.make 0 0;
  load_magic a := if a =? 4096 then 2240826417119764422 else 0;
  load_char a := a mod 256
|}.

Definition buffer : Buffer.t := Buffer.make 4096 2048.

Definition provider : BCProviderFromBuffer.t := {|
  BCProviderFromBuffer.base_ :=
    {| BCProviderBase.functionCount_ := 3;
       BCProviderBase.globalFunctionIndex_ := 0;
       BCProviderBase.stringCount_ := 2;
       BCProviderBase.stringStorage_ := ArrayRef.make 5000 305;
       BCProviderBase.debugInfo_ := 0;
       BCProviderBase.errstr_ := EmptyString |};
  BCProviderFromBuffer.buffer_ := buffer;
  BCProviderFromBuffer.bufferPtr_ := 4096;
  BCProviderFromBuffer.functionHeaders_ := 4224;
  BCProviderFromBuffer.stringTableEntries_ := 4400;
  BCProviderFromBuffer.debugInfoOffset_ := 1800
|}.

Definition handlers : list HBCExceptionHandlerInfo.t :=
  [ HBCExceptionHandlerInfo.make 0 100 10;
    HBCExceptionHandlerInfo.make 20 60 20;
    HBCExceptionHandlerInfo.make 30 40 30 ].

#[export] Instance outOfLine : BCProviderFromBuffer.OutOfLine := {
  BCProviderFromBuffer.populate _ _ := provider;
  BCProviderFromBuffer.declaredTables _ _ :=
    [ {| BCProviderFromBuffer.extent_offset := 128; BCProviderFromBuffer.extent_size := 48 |};
      {| BCProviderFromBuffer.extent_offset := 304; BCProviderFromBuffer.extent_size := 16 |};
      {| BCProviderFromBuffer.extent_offset := 904; BCProviderFromBuffer.extent_size := 305 |} ];
  BCProviderFromBuffer.createDebugInfo_ p :=
    {| BCProviderFromBuffer.base_ :=
         BCProviderBase.set_debugInfo
           (BCProviderFromBuffer.bufferPtr_ p + BCProviderFromBuffer.debugInfoOffset_ p)
           (BCProviderFromBuffer.base_ p);
       BCProviderFromBuffer.buffer_ := BCProviderFromBuffer.buffer_ p;
       BCProviderFromBuffer.bufferPtr_ := BCProviderFromBuffer.bufferPtr_ p;
       BCProviderFromBuffer.functionHeaders_ := BCProviderFromBuffer.functionHeaders_ p;
       BCProviderFromBuffer.stringTableEntries_ := BCProviderFromBuffer.stringTableEntries_ p;
       BCProviderFromBuffer.debugInfoOffset_ := BCProviderFromBuffer.debugInfoOffset_ p |};
  BCProviderFromBuffer.getExceptionTableAndDebugOffsets _ _ functionID :=
    if functionID =? 0 then (handlers, 0) else ([], 0)
}.

Definition asProvider : BCProviderBase.Provider BCProviderFromBuffer.t :=
  BCProviderFromBuffer.FromBuffer_Provider memory.

(** The sample provider with a construction hook that builds nothing. *)
Definition neverBuilds : BCProviderBase.Provider BCProviderFromBuffer.t := {|
  BCProviderBase.base := BCProviderFromBuffer.base_;
  BCProviderBase.createDebugInfo := fun p => p;
  BCProviderBase.getStringTableEntry := BCProviderFromBuffer.getStringTableEntry memory;
  BCProviderBase.getFunctionHeader := BCProviderFromBuffer.getFunctionHeader memory;
  BCProviderBase.getBytecode := BCProviderFromBuffer.getBytecode memory;
  BCProviderBase.getExceptionTable := BCProviderFromBuffer.getExceptionTable memory;
  BCProviderBase.getDebugOffsets := BCProviderFromBuffer.getDebugOffsets memory;
  BCProviderBase.isFunctionLazy := BCProviderFromBuffer.isFunctionLazy;
  BCProviderBase.isLazy := BCProviderFromBuffer.isLazy
|}.

(** The sample memory with every string slot wiped except the two that the
    decoding of string 1 reads. *)
Definition memoryElsewhere : Memory := {|
  load_SmallFuncHeader _ := nothing;
  load_FunctionHeader _ := nothing;
  load_SmallStringTableEntry a :=
    if a =? 4404 then SmallStringTableEntry.make true true 0 255
    else SmallStringTableEntry.make false false 7 7;
  load_OverflowStringTableEntry a :=
    if a =? 4408 then OverflowStringTableEntry.make 5 300
    else OverflowStringTableEntry.make 9 9;
  load_magic _ := 0;
  load_char _ := 0
|}.

(** The sample memory with every header wiped except the slot and the large
    record of function 1. *)
Definition memoryHeader1 : Memory := {|
  load_SmallFuncHeader a := if a =? 4240 then slot1 else header 1 1 1 1 1 1 1;
  load_FunctionHeader a := if a =? 4696 then logical1 else header 2 2 2 2 2 2 2;
  load_SmallStringTableEntry _ := SmallStringTableEntry.make false false 0 0;
  load_OverflowStringTableEntry _ := OverflowStringTableEntry.make 0 0;
  load_magic _ := 0;
  load_char _ := 0
|}.

(** A byte view too short to hold a file header, and one with a wrong magic. *)
Definition truncated : Buffer.t := Buffer.make 4096 16.
Definition wrongMagic : Buffer.t := Buffer.make 8192 2048.

End Sample.

(** * Properties *)

(** ** The tag bit *)

Lemma land_one_even (a : Z) : Z.even a = true -> Z.land a 1 = 0.
Proof.
  intros Ha. change 1 with (Z.ones 1). rewrite Z.land_ones by lia.
  apply Zeven_bool_iff in Ha. apply Zeven_ex_iff in Ha as [k ->].
  change (2 ^ 1) with 2. rewrite Z.mul_comm. apply Z_mod_mult.
Qed.

Lemma land_one_succ_even (a : Z) : Z.even a = true -> Z.land (a + 1) 1 = 1.
Proof.
  intros Ha. change 1 with (Z.ones 1) at 2. rewrite Z.land_ones by lia.
  apply Zeven_bool_iff in Ha. apply Zeven_ex_iff in Ha as [k ->].
  change (2 ^ 1) with 2. rewrite Z.add_comm, Z.mul_comm, Z_mod_plus_full.
  reflexivity.
Qed.

Lemma isLarge_testbit (h : RuntimeFunctionHeader.t) :
  RuntimeFunctionHeader.isLarge h = Z.testbit (RuntimeFunctionHeader.ptr_ h) 0.
Proof.
  unfold RuntimeFunctionHeader.isLarge.
  rewrite Z.bit0_odd. change 1 with (Z.ones 1). rewrite Z.land_ones by lia.
  change (2 ^ 1) with 2. rewrite Zmod_odd.
  destruct (Z.odd (RuntimeFunctionHeader.ptr_ h)); reflexivity.
Qed.

Lemma ofSmall_even (a : Z) :
  Z.even a = true ->
  RuntimeFunctionHeader.ofSmall a = Some {| RuntimeFunctionHeader.ptr_ := a |}.
Proof.
  intros Ha. unfold RuntimeFunctionHeader.ofSmall, RuntimeFunctionHeader.isLarge.
  cbn. rewrite (land_one_even _ Ha). reflexivity.
Qed.

Lemma ofLarge_even (a : Z) :
  Z.even a = true ->
  RuntimeFunctionHeader.ofLarge a = Some {| RuntimeFunctionHeader.ptr_ := a + 1 |}.
Proof.
  intros Ha. unfold RuntimeFunctionHeader.ofLarge, RuntimeFunctionHeader.isLarge.
  cbn. rewrite (land_one_succ_even _ Ha). reflexivity.
Qed.

Section HeaderFacts.
Context {fmt : FileFormat} (mem : Memory).

Lemma get_small (a : Z) (name : field) :
  Z.even a = true ->
  RuntimeFunctionHeader.get mem name {| RuntimeFunctionHeader.ptr_ := a |}
  = Some (small_field (load_SmallFuncHeader mem a) name).
Proof.
  intros Ha.
  unfold RuntimeFunctionHeader.get, RuntimeFunctionHeader.asSmall,
    RuntimeFunctionHeader.isLarge.
  cbn. rewrite (land_one_even _ Ha). reflexivity.
Qed.

Lemma get_large (a : Z) (name : field) :
  Z.even a = true ->
  RuntimeFunctionHeader.get mem name {| RuntimeFunctionHeader.ptr_ := a + 1 |}
  = Some (large_field (load_FunctionHeader mem a) name).
Proof.
  intros Ha.
  unfold RuntimeFunctionHeader.get, RuntimeFunctionHeader.asLarge,
    RuntimeFunctionHeader.isLarge.
  cbn. rewrite (land_one_succ_even _ Ha). cbn.
  replace (a + 1 - 1) with a by lia. reflexivity.
Qed.

(** Whatever the held address, an accessor reads the large layout at the
    address minus one when bit 0 is set and the small layout at the address
    itself otherwise; no assertion of [asSmall] or [asLarge] can fail there. *)
Lemma get_dispatch (name : field) (h : RuntimeFunctionHeader.t) :
  RuntimeFunctionHeader.get mem name h
  = if Z.testbit (RuntimeFunctionHeader.ptr_ h) 0
    then Some (large_field (load_FunctionHeader mem (RuntimeFunctionHeader.ptr_ h - 1)) name)
    else Some (small_field (load_SmallFuncHeader mem (RuntimeFunctionHeader.ptr_ h)) name).
Proof.
  rewrite <- isLarge_testbit.
  unfold RuntimeFunctionHeader.get, RuntimeFunctionHeader.asLarge,
    RuntimeFunctionHeader.asSmall.
  destruct (RuntimeFunctionHeader.isLarge h); reflexivity.
Qed.

(** The header of an encoded function, whichever shape backs it. *)
Lemma getFunctionHeader_backs (p : BCProviderFromBuffer.t) (i : Z) (v : LogicalHeader) :
  backs mem p i v ->
  exists h,
    BCProviderFromBuffer.getFunctionHeader mem p i = Some h
    /\ forall name, RuntimeFunctionHeader.get mem name h = Some (v name).
Proof.
  intros [Hflag Heven Hval | Hflag Heven Hval];
    unfold BCProviderFromBuffer.getFunctionHeader;
    fold (slotAddress p i); rewrite Hflag.
  - exists {| RuntimeFunctionHeader.ptr_ := slotAddress p i |}. split.
    + apply ofSmall_even, Heven.
    + intros name. rewrite get_small by exact Heven. now rewrite Hval.
  - fold (largeAddress mem p i).
    exists {| RuntimeFunctionHeader.ptr_ := largeAddress mem p i + 1 |}. split.
    + apply ofLarge_even, Heven.
    + intros name. rewrite get_large by exact Heven. now rewrite Hval.
Qed.

Lemma Encoded_backs (p : BCProviderFromBuffer.t) (headers : list LogicalHeader)
    (i : Z) (v : LogicalHeader) :
  Encoded mem p headers -> 0 <= i ->
  nth_error headers (Z.to_nat i) = Some v ->
  backs mem p i v.
Proof.
  intros [_ Hall] Hi Hnth. specialize (Hall _ _ Hnth).
  now rewrite Z2Nat.id in Hall by lia.
Qed.

(** C1.  For a buffer that encodes the logical headers [headers] and a valid
    function index [i], [getFunctionHeader i] succeeds and every field
    accessor of the reference it returns yields the value encoded for function
    [i], whether the compact or the overflow shape backs it; each accessor
    chooses the layout by bit 0 of the held address, reading the large layout
    one byte below that address and the small layout at the address itself. *)
Theorem getFunctionHeader_fields_roundtrip
    (p : BCProviderFromBuffer.t) (headers : list LogicalHeader)
    (i : Z) (v : LogicalHeader) :
  Encoded mem p headers ->
  0 <= i < BCProviderBase.functionCount_ (BCProviderFromBuffer.base_ p) ->
  nth_error headers (Z.to_nat i) = Some v ->
  exists h,
    BCProviderFromBuffer.getFunctionHeader mem p i = Some h
    /\ (forall name, RuntimeFunctionHeader.get mem name h = Some (v name))
    /\ (forall name,
          RuntimeFunctionHeader.get mem name h
          = if Z.testbit (RuntimeFunctionHeader.ptr_ h) 0
            then Some (large_field
                         (load_FunctionHeader mem (RuntimeFunctionHeader.ptr_ h - 1)) name)
            else Some (small_field
                         (load_SmallFuncHeader mem (RuntimeFunctionHeader.ptr_ h)) name)).
Proof.
  intros Henc [Hlo _] Hnth.
  destruct (getFunctionHeader_backs (Encoded_backs Henc Hlo Hnth)) as (h & Hh & Hget).
  exists h. repeat split; auto using get_dispatch.
Qed.


(** C5 (as amended).  When the compact slot of a function has its overflow flag
    set and the large record it resolves to lies at an even address, the
    reference returned holds that address plus one, so its tag bit is set; every
    accessor takes the one byte off again and reads the large record at its own
    address. *)
Theorem getFunctionHeader_large_tagging (p : BCProviderFromBuffer.t) (i : Z) :
  flags_overflowed (load_SmallFuncHeader mem (slotAddress p i)) = true ->
  Z.even (largeAddress mem p i) = true ->
  exists h,
    BCProviderFromBuffer.getFunctionHeader mem p i = Some h
    /\ RuntimeFunctionHeader.ptr_ h = largeAddress mem p i + 1
    /\ RuntimeFunctionHeader.isLarge h = true
    /\ RuntimeFunctionHeader.asLarge h = Some (largeAddress mem p i)
    /\ forall name,
         RuntimeFunctionHeader.get mem name h
         = Some (large_field (load_FunctionHeader mem (largeAddress mem p i)) name).
Proof.
  intros Hflag Heven.
  exists {| RuntimeFunctionHeader.ptr_ := largeAddress mem p i + 1 |}.
  assert (Htag : RuntimeFunctionHeader.isLarge
                   {| RuntimeFunctionHeader.ptr_ := largeAddress mem p i + 1 |} = true).
  { unfold RuntimeFunctionHeader.isLarge. cbn.
    now rewrite (land_one_succ_even _ Heven). }
  repeat split.
  - unfold BCProviderFromBuffer.getFunctionHeader.
    fold (slotAddress p i). rewrite Hflag. fold (largeAddress mem p i).
    apply ofLarge_even, Heven.
  - exact Htag.
  - unfold RuntimeFunctionHeader.asLarge. rewrite Htag. cbn.
    f_equal. lia.
  - intros name. apply get_large, Heven.
Qed.

(** C9.  [getBytecode id] is the buffer base plus what the [offset] accessor
    of [getFunctionHeader id] returns; for a valid index of an encoded buffer
    that is the buffer base plus the offset encoded for the function, in the
    compact and in the overflow shape alike. *)
Theorem getBytecode_base_plus_offset (p : BCProviderFromBuffer.t) (id : Z) :
  (forall h o,
      BCProviderFromBuffer.getFunctionHeader mem p id = Some h ->
      RuntimeFunctionHeader.get mem offset h = Some o ->
      BCProviderFromBuffer.getBytecode mem p id
      = Some (BCProviderFromBuffer.bufferPtr_ p + o))
  /\ (forall headers v,
        Encoded mem p headers ->
        0 <= id < BCProviderBase.functionCount_ (BCProviderFromBuffer.base_ p) ->
        nth_error headers (Z.to_nat id) = Some v ->
        BCProviderFromBuffer.getBytecode mem p id
        = Some (BCProviderFromBuffer.bufferPtr_ p + v offset)).
Proof.
  split.
  - intros h o Hh Ho. unfold BCProviderFromBuffer.getBytecode.
    now rewrite Hh, Ho.
  - intros headers v Henc [Hlo _] Hnth.
    destruct (getFunctionHeader_backs (Encoded_backs Henc Hlo Hnth)) as (h & Hh & Hget).
    unfold BCProviderFromBuffer.getBytecode. now rewrite Hh, Hget.
Qed.

Lemma wrap32_range (z : Z) : 0 <= wrap32 z < 2 ^ 32.
Proof. unfold wrap32. apply Z.mod_pos_bound. lia. Qed.

Lemma wrap32_add_l (a b : Z) : wrap32 (wrap32 a + b) = wrap32 (a + b).
Proof. unfold wrap32. apply Zplus_mod_idemp_l. Qed.

Lemma wrap32_small (z : Z) : 0 <= z < 2 ^ 32 -> wrap32 z = z.
Proof. intros Hz. unfold wrap32. now apply Z.mod_small. Qed.

Lemma skipn_nth_error {A : Type} (l : list A) (i : nat) (x : A) :
  nth_error l i = Some x -> skipn i l = x :: skipn (S i) l.
Proof.
  revert i. induction l as [|y l IH]; intros [|i] Hi; cbn in *; try discriminate.
  - now inversion Hi.
  - now apply IH.
Qed.

Section VirtualOffset.
Context {ool : BCProviderFromBuffer.OutOfLine}.

Lemma getVirtualOffsetForFunction_loop_sum
    (p : BCProviderFromBuffer.t) (headers : list LogicalHeader) :
  Encoded mem p headers ->
  forall (count i : nat) (acc : Z),
    (i + count <= List.length headers)%nat ->
    0 <= acc < 2 ^ 32 ->
    BCProviderBase.getVirtualOffsetForFunction_loop mem
      (Provider0 := BCProviderFromBuffer.FromBuffer_Provider mem)
      p count (Z.of_nat i) acc
    = Some (wrap32 (acc + totalBytecodeSize (firstn count (skipn i headers)))).
Proof.
  intros Henc count. induction count as [|count IH]; intros i acc Hlen Hacc.
  - cbn. rewrite Z.add_0_r. now rewrite wrap32_small.
  - destruct (nth_error headers i) as [v|] eqn:Hnth.
    2:{ apply nth_error_None in Hnth. lia. }
    destruct (getFunctionHeader_backs (proj2 Henc _ _ Hnth)) as (h & Hh & Hget).
    cbn [BCProviderBase.getVirtualOffsetForFunction_loop].
    cbn [BCProviderBase.getFunctionHeader BCProviderFromBuffer.FromBuffer_Provider].
    rewrite Hh, Hget.
    replace (Z.of_nat i + 1) with (Z.of_nat (S i)) by lia.
    rewrite IH by (auto using wrap32_range; lia).
    rewrite (skipn_nth_error _ _ Hnth). cbn [firstn totalBytecodeSize fold_right].
    fold (totalBytecodeSize (firstn count (skipn (S i) headers))).
    rewrite wrap32_add_l. f_equal. f_equal. lia.
Qed.

(** C6.  For a valid function index [i] of an encoded buffer,
    [getVirtualOffsetForFunction i] is the sum of the bytecode byte lengths of
    the functions with an index below [i], as a [uint32_t]: the sum itself
    whenever it is below 2^32, and 0 for function 0. *)
Theorem getVirtualOffsetForFunction_sum
    (p : BCProviderFromBuffer.t) (headers : list LogicalHeader) (i : Z) :
  Encoded mem p headers ->
  0 <= i < BCProviderBase.functionCount_ (BCProviderFromBuffer.base_ p) ->
  let below := totalBytecodeSize (firstn (Z.to_nat i) headers) in
  BCProviderFromBuffer.getVirtualOffsetForFunction mem p i = Some (wrap32 below)
  /\ (0 <= below < 2 ^ 32 ->
      BCProviderFromBuffer.getVirtualOffsetForFunction mem p i = Some below)
  /\ (i = 0 -> BCProviderFromBuffer.getVirtualOffsetForFunction mem p i = Some 0).
Proof.
  intros Henc Hi below.
  assert (Hsum : BCProviderFromBuffer.getVirtualOffsetForFunction mem p i
                 = Some (wrap32 below)).
  { unfold BCProviderFromBuffer.getVirtualOffsetForFunction,
      BCProviderBase.getVirtualOffsetForFunction.
    change 0 with (Z.of_nat 0) at 1.
    rewrite (getVirtualOffsetForFunction_loop_sum Henc).
    - reflexivity.
    - destruct Henc as [Hcount _]. lia.
    - lia. }
  repeat split.
  - exact Hsum.
  - intros Hsmall. now rewrite Hsum, wrap32_small.
  - intros ->. rewrite Hsum. reflexivity.
Qed.

End VirtualOffset.
End HeaderFacts.

(** ** The string table *)

Section StringFacts.
Context {fmt : FileFormat} {ool : BCProviderFromBuffer.OutOfLine} (mem : Memory).

(** C2.  [getStringTableEntry index] reads the compact slot at [index].  The
    UTF-16 and identifier flags of the entry are those of the slot.  With the
    overflow flag clear, offset and length are those of the slot; with it set,
    the slot's offset field indexes the overflow table, which starts right
    behind the last compact slot at [stringTableEntries_ + stringCount_], and
    offset and length are those of that overflow slot. *)
Theorem getStringTableEntry_decode (p : BCProviderFromBuffer.t) (index : Z) :
  let slot :=
    load_SmallStringTableEntry mem
      (BCProviderFromBuffer.stringTableEntries_ p
       + index * sizeof_SmallStringTableEntry) in
  let overflowBase :=
    BCProviderFromBuffer.stringTableEntries_ p
    + BCProviderBase.stringCount_ (BCProviderFromBuffer.base_ p)
      * sizeof_SmallStringTableEntry in
  let overflow :=
    load_OverflowStringTableEntry mem
      (overflowBase
       + SmallStringTableEntry.offset slot * sizeof_OverflowStringTableEntry) in
  let entry := BCProviderFromBuffer.getStringTableEntry mem p index in
  StringTableEntry.isUTF16 entry = SmallStringTableEntry.isUTF16 slot
  /\ StringTableEntry.isIdentifier entry = SmallStringTableEntry.isIdentifier slot
  /\ (isOverflowed slot = false ->
      StringTableEntry.getOffset entry = SmallStringTableEntry.offset slot
      /\ StringTableEntry.getLength entry = SmallStringTableEntry.length slot)
  /\ (isOverflowed slot = true ->
      StringTableEntry.getOffset entry = OverflowStringTableEntry.offset overflow
      /\ StringTableEntry.getLength entry = OverflowStringTableEntry.length overflow).
Proof.
  intros slot overflowBase overflow entry.
  subst entry. unfold BCProviderFromBuffer.getStringTableEntry.
  fold slot. unfold BCProviderFromBuffer.stringCount_.
  fold overflowBase. fold overflow.
  destruct (isOverflowed slot) eqn:Hov;
    destruct (SmallStringTableEntry.isIdentifier slot) eqn:Hid;
    cbn; repeat split; intros; try discriminate; reflexivity.
Qed.

Lemma firstn_seq_le (m start len : nat) :
  (m <= len)%nat -> firstn m (seq start len) = seq start m.
Proof.
  revert start len. induction m as [|m IH]; intros start [|len] Hm; cbn;
    try reflexivity; try lia.
  f_equal. apply IH. lia.
Qed.

Lemma map_seq_from {A : Type} (f : nat -> A) (start len : nat) :
  map f (seq start len) = map (fun k => f (start + k)%nat) (seq 0 len).
Proof.
  revert start. induction len as [|len IH]; intros start; cbn.
  - reflexivity.
  - rewrite Nat.add_0_r. f_equal.
    rewrite (IH (S start)), <- (seq_shift len 0), map_map. apply map_ext.
    intros k. f_equal. lia.
Qed.

Lemma bytesAt_slice (a n off len : Z) :
  0 <= off -> 0 <= len -> off + len <= n ->
  bytesAt mem (a + off) len
  = firstn (Z.to_nat len) (skipn (Z.to_nat off) (bytesAt mem a n)).
Proof.
  intros Hoff Hlen Hfit. unfold bytesAt.
  rewrite skipn_map, firstn_map, skipn_seq, firstn_seq_le by lia.
  rewrite (map_seq_from _ (0 + Z.to_nat off)).
  apply map_ext. intros k. f_equal. lia.
Qed.

(** C10.  The view [getStringRefFromID stringID] starts at the beginning of
    the string storage advanced by the offset of [getStringTableEntry stringID]
    and has that entry's length; when the entry's range lies inside the
    storage, the bytes of the view are that slice of the bytes of the
    storage. *)
Theorem getStringRefFromID_decode_then_slice (p : BCProviderFromBuffer.t) (stringID : Z) :
  let entry := BCProviderFromBuffer.getStringTableEntry mem p stringID in
  let storage := BCProviderBase.stringStorage_ (BCProviderFromBuffer.base_ p) in
  let ref := BCProviderFromBuffer.getStringRefFromID mem p stringID in
  StringRef.Data ref = ArrayRef.begin storage + StringTableEntry.getOffset entry
  /\ StringRef.Length ref = StringTableEntry.getLength entry
  /\ (0 <= StringTableEntry.getOffset entry ->
      0 <= StringTableEntry.getLength entry ->
      StringTableEntry.getOffset entry + StringTableEntry.getLength entry
        <= ArrayRef.size storage ->
      bytesAt mem (StringRef.Data ref) (StringRef.Length ref)
      = firstn (Z.to_nat (StringTableEntry.getLength entry))
          (skipn (Z.to_nat (StringTableEntry.getOffset entry))
             (bytesAt mem (ArrayRef.data storage) (ArrayRef.size storage)))).
Proof.
  intros entry storage ref. repeat split.
  intros Hoff Hlen Hfit. apply bytesAt_slice; assumption.
Qed.

(** ** Probing and construction *)

(** C7.  [isBytecodeStream] answers true exactly for a view at least as large
    as the file header whose magic field equals the magic constant, and the
    [Buffer] overload answers what the view overload answers on the buffer's
    data and size. *)
Theorem isBytecodeStream_iff (aref : ArrayRef.t) (buffer : Buffer.t) :
  (BCProviderFromBuffer.isBytecodeStream mem aref = true
   <-> ArrayRef.size aref >= sizeof_BytecodeFileHeader
       /\ load_magic mem (ArrayRef.data aref) = MAGIC)
  /\ BCProviderFromBuffer.isBytecodeStream_Buffer mem buffer
     = BCProviderFromBuffer.isBytecodeStream mem
         (ArrayRef.make (Buffer.data buffer) (Buffer.size buffer)).
Proof.
  split; [|reflexivity].
  unfold BCProviderFromBuffer.isBytecodeStream.
  rewrite andb_true_iff, Z.geb_le, Z.eqb_eq. lia.
Qed.

End StringFacts.

Section ConstructionFacts.
Context {fmt : FileFormat} {ool : BCProviderFromBuffer.OutOfLine} (mem : Memory).

Lemma length_zero_iff (s : string) : (String.length s =? 0)%nat = true <-> s = EmptyString.
Proof.
  destruct s; cbn; split; intros Hs; try reflexivity; discriminate.
Qed.

Lemma errstr_set_errstr (msg : string) (p : BCProviderFromBuffer.t) :
  BCProviderBase.errstr_
    (BCProviderFromBuffer.base_ (BCProviderFromBuffer.set_errstr msg p)) = msg.
Proof. reflexivity. Qed.

(** The sanity check either accepts without a diagnostic or refuses with a
    non-empty one. *)
Lemma bytecodeStreamSanityCheck_cases (aref : ArrayRef.t) :
  BCProviderFromBuffer.bytecodeStreamSanityCheck mem aref = (true, EmptyString)
  \/ exists msg,
       BCProviderFromBuffer.bytecodeStreamSanityCheck mem aref = (false, msg)
       /\ msg <> EmptyString.
Proof.
  unfold BCProviderFromBuffer.bytecodeStreamSanityCheck.
  destruct (ArrayRef.size aref <? sizeof_BytecodeFileHeader);
    [right; eexists; split; [reflexivity | discriminate] |].
  destruct (load_magic mem (ArrayRef.data aref) =? MAGIC); cbn;
    [| right; eexists; split; [reflexivity | discriminate]].
  destruct (forallb _ _); cbn;
    [left; reflexivity | right; eexists; split; [reflexivity | discriminate]].
Qed.

Lemma bytecodeStreamSanityCheck_malformed (buffer : Buffer.t) :
  malformed mem buffer ->
  fst (BCProviderFromBuffer.bytecodeStreamSanityCheck mem
         (ArrayRef.make (Buffer.data buffer) (Buffer.size buffer))) = false.
Proof.
  unfold malformed, BCProviderFromBuffer.bytecodeStreamSanityCheck. cbn.
  intros [Hshort | [Hmagic | (e & Hin & Hfit)]].
  - apply Z.ltb_lt in Hshort. now rewrite Hshort.
  - apply Z.eqb_neq in Hmagic. rewrite Hmagic.
    now destruct (Buffer.size buffer <? sizeof_BytecodeFileHeader).
  - destruct (Buffer.size buffer <? sizeof_BytecodeFileHeader); [reflexivity|].
    destruct (load_magic mem (Buffer.data buffer) =? MAGIC); [cbn | reflexivity].
    destruct (forallb _ _) eqn:Hall; [|reflexivity].
    rewrite forallb_forall in Hall. rewrite (Hall _ Hin) in Hfit. discriminate.
Qed.

(** C3.  [createBCProviderFromBuffer] returns either the constructed container,
    with every table located, and an empty error string, or null and a
    non-empty diagnostic; the container is null exactly when the error string
    of the construction attempt is non-empty, and that string is the one
    returned; a malformed buffer (too short for the file header, wrong magic,
    or a declared table that does not fit) always gives null and a
    diagnostic. *)
Theorem createBCProviderFromBuffer_outcome (buffer : Buffer.t) :
  let result := BCProviderFromBuffer.createBCProviderFromBuffer mem buffer in
  let attempt := BCProviderFromBuffer.construct mem buffer in
  let errstr := BCProviderBase.errstr_ (BCProviderFromBuffer.base_ attempt) in
  ((fst result = Some attempt /\ snd result = EmptyString
    /\ attempt
       = BCProviderFromBuffer.set_errstr EmptyString
           (BCProviderFromBuffer.populate mem buffer))
   \/ (fst result = None /\ snd result <> EmptyString))
  /\ (fst result = None <-> errstr <> EmptyString)
  /\ snd result = errstr
  /\ (malformed mem buffer -> fst result = None /\ snd result <> EmptyString).
Proof.
  intros result attempt errstr.
  assert (Hnull : fst result = None <-> errstr <> EmptyString).
  { subst result. unfold BCProviderFromBuffer.createBCProviderFromBuffer. cbn [fst].
    fold attempt. change (BCProviderBase.getErrorStr attempt) with errstr.
    destruct (String.length errstr =? 0)%nat eqn:Hlen.
    - apply length_zero_iff in Hlen. rewrite Hlen. split; [discriminate | congruence].
    - split; [intros _ Hempty | reflexivity].
      apply length_zero_iff in Hempty. congruence. }
  assert (Hsnd : snd result = errstr) by reflexivity.
  split; [| split; [exact Hnull | split; [exact Hsnd |]]].
  - subst result errstr attempt.
    unfold BCProviderFromBuffer.createBCProviderFromBuffer, BCProviderFromBuffer.construct.
    destruct (bytecodeStreamSanityCheck_cases
                (ArrayRef.make (Buffer.data buffer) (Buffer.size buffer)))
      as [-> | (msg & -> & Hmsg)].
    + left. repeat split.
    + right. cbn. split; [|exact Hmsg].
      destruct msg; [congruence | reflexivity].
  - intros Hmalformed.
    assert (Herr : errstr <> EmptyString).
    { subst errstr attempt. unfold BCProviderFromBuffer.construct.
      pose proof (bytecodeStreamSanityCheck_malformed Hmalformed) as Hrefused.
      destruct (bytecodeStreamSanityCheck_cases
                  (ArrayRef.make (Buffer.data buffer) (Buffer.size buffer)))
        as [Hok | (msg & Hbad & Hmsg)].
      - rewrite Hok in Hrefused. discriminate.
      - rewrite Hbad. exact Hmsg. }
    split; [apply Hnull, Herr | rewrite Hsnd; exact Herr].
Qed.

End ConstructionFacts.

(** ** Operations of the base class *)

Lemma toInt32_small (z : Z) : 0 <= z < 2 ^ 31 -> toInt32 z = z.
Proof.
  intros Hz. unfold toInt32. rewrite wrap32_small by lia.
  destruct (z <? 2 ^ 31) eqn:Hlt; [reflexivity | apply Z.ltb_ge in Hlt; lia].
Qed.

Section BaseFacts.
Context {fmt : FileFormat} {P : Type} {impl : BCProviderBase.Provider P}.

Lemma covers_iff (exceptionOffset : Z) (h : HBCExceptionHandlerInfo.t) :
  BCProviderBase.covers exceptionOffset h = true
  <-> HBCExceptionHandlerInfo.start h <= exceptionOffset < HBCExceptionHandlerInfo.end_ h.
Proof.
  unfold BCProviderBase.covers. rewrite andb_true_iff, Z.leb_le, Z.ltb_lt. tauto.
Qed.

Lemma scan_app (l1 l2 : list HBCExceptionHandlerInfo.t) (exceptionOffset found : Z) :
  BCProviderBase.findCatchTargetOffset_scan (l1 ++ l2) exceptionOffset found
  = BCProviderBase.findCatchTargetOffset_scan l2 exceptionOffset
      (BCProviderBase.findCatchTargetOffset_scan l1 exceptionOffset found).
Proof.
  revert found. induction l1 as [|h l1 IH]; intros found; cbn; [reflexivity | apply IH].
Qed.

Lemma scan_no_match (l : list HBCExceptionHandlerInfo.t) (exceptionOffset found : Z) :
  (forall h, In h l ->
     ~ (HBCExceptionHandlerInfo.start h <= exceptionOffset < HBCExceptionHandlerInfo.end_ h)) ->
  BCProviderBase.findCatchTargetOffset_scan l exceptionOffset found = found.
Proof.
  revert found. induction l as [|h l IH]; intros found Hnone; cbn; [reflexivity|].
  destruct (BCProviderBase.covers exceptionOffset h) eqn:Hc.
  - apply covers_iff in Hc. exfalso. apply (Hnone h); [now left | exact Hc].
  - apply IH. intros h' Hin. apply Hnone. now right.
Qed.

(** C4.  If the handler table of the function splits into [before], a record
    [h] whose range [start, end) holds the fault offset, and [after] in which no
    range holds it, [findCatchTargetOffset] returns the target of [h] (as the
    [int32_t] it is declared to return, so the target itself when that is
    below 2^31); if no range of the table holds the fault offset it returns
    -1. *)
Theorem findCatchTargetOffset_last_match (p : P) (functionID exceptionOffset : Z) :
  (forall before h after,
      BCProviderBase.getExceptionTable p functionID = before ++ h :: after ->
      HBCExceptionHandlerInfo.start h <= exceptionOffset < HBCExceptionHandlerInfo.end_ h ->
      (forall h', In h' after ->
         ~ (HBCExceptionHandlerInfo.start h' <= exceptionOffset
            < HBCExceptionHandlerInfo.end_ h')) ->
      BCProviderBase.findCatchTargetOffset p functionID exceptionOffset
      = toInt32 (HBCExceptionHandlerInfo.target h)
      /\ (0 <= HBCExceptionHandlerInfo.target h < 2 ^ 31 ->
          BCProviderBase.findCatchTargetOffset p functionID exceptionOffset
          = HBCExceptionHandlerInfo.target h))
  /\ ((forall h, In h (BCProviderBase.getExceptionTable p functionID) ->
         ~ (HBCExceptionHandlerInfo.start h <= exceptionOffset
            < HBCExceptionHandlerInfo.end_ h)) ->
      BCProviderBase.findCatchTargetOffset p functionID exceptionOffset = -1).
Proof.
  unfold BCProviderBase.findCatchTargetOffset. split.
  - intros before h after Htable Hin Hafter.
    assert (Hlast : BCProviderBase.findCatchTargetOffset_scan
                      (BCProviderBase.getExceptionTable p functionID) exceptionOffset (-1)
                    = toInt32 (HBCExceptionHandlerInfo.target h)).
    { rewrite Htable, scan_app. cbn [BCProviderBase.findCatchTargetOffset_scan].
      apply covers_iff in Hin. rewrite Hin. now apply scan_no_match. }
    split; [exact Hlast | intros Hrange; now rewrite Hlast, toInt32_small].
  - apply scan_no_match.
Qed.

(** Once the cached pointer is set, a call returns it and leaves the object,
    and with it the count of hook runs, as it was. *)
Lemma getDebugInfo_cached (c : BCProviderBase.Counted P) :
  BCProviderBase.debugInfo_ (BCProviderBase.base (BCProviderBase.obj c)) <> 0 ->
  BCProviderBase.getDebugInfo (Provider0 := BCProviderBase.Counted_Provider) c
  = (BCProviderBase.debugInfo_ (BCProviderBase.base (BCProviderBase.obj c)), c).
Proof.
  intros Hset. unfold BCProviderBase.getDebugInfo. cbn.
  apply Z.eqb_neq in Hset. now rewrite Hset.
Qed.

Lemma getDebugInfo_times_cached (n : nat) (c : BCProviderBase.Counted P) :
  BCProviderBase.debugInfo_ (BCProviderBase.base (BCProviderBase.obj c)) <> 0 ->
  BCProviderBase.getDebugInfo_times (Provider0 := BCProviderBase.Counted_Provider) n c
  = (repeat (BCProviderBase.debugInfo_ (BCProviderBase.base (BCProviderBase.obj c))) n, c).
Proof.
  intros Hset. induction n as [|n IH]; [reflexivity|].
  cbn [BCProviderBase.getDebugInfo_times]. rewrite (getDebugInfo_cached _ Hset), IH.
  reflexivity.
Qed.

(** C8.  Provided the construction hook, run on the object, leaves a non-null
    cached pointer: a
    first call of [getDebugInfo] on an object whose pointer is still null runs
    the hook once; every later call returns the pointer the first call
    returned and leaves the object as it was, so the hook does not run again;
    over any number of calls in a row the hook runs at most once, and all of
    them return the same pointer. *)
Theorem getDebugInfo_hook_at_most_once (c : BCProviderBase.Counted P) :
  BCProviderBase.debugInfo_
    (BCProviderBase.base (BCProviderBase.createDebugInfo (BCProviderBase.obj c))) <> 0 ->
  let getDebugInfo :=
    BCProviderBase.getDebugInfo (Provider0 := BCProviderBase.Counted_Provider) in
  let calls :=
    BCProviderBase.getDebugInfo_times (Provider0 := BCProviderBase.Counted_Provider) in
  let first := getDebugInfo c in
  getDebugInfo (snd first) = first
  /\ (forall n, calls n (snd first) = (repeat (fst first) n, snd first))
  /\ (forall n, calls (S n) c = (repeat (fst first) (S n), snd first))
  /\ (forall n, (BCProviderBase.hookCalls (snd (calls n c))
                 <= S (BCProviderBase.hookCalls c))%nat)
  /\ (BCProviderBase.debugInfo_ (BCProviderBase.base (BCProviderBase.obj c)) = 0 ->
      BCProviderBase.hookCalls (snd first) = S (BCProviderBase.hookCalls c))
  /\ fst first <> 0.
Proof.
  intros Hhook getDebugInfo calls first.
  assert (Hset : BCProviderBase.debugInfo_
                   (BCProviderBase.base (BCProviderBase.obj (snd first))) <> 0
                 /\ fst first
                    = BCProviderBase.debugInfo_
                        (BCProviderBase.base (BCProviderBase.obj (snd first)))
                 /\ (BCProviderBase.hookCalls (snd first)
                     <= S (BCProviderBase.hookCalls c))%nat).
  { subst first getDebugInfo. unfold BCProviderBase.getDebugInfo. cbn.
    destruct (BCProviderBase.debugInfo_ (BCProviderBase.base (BCProviderBase.obj c)) =? 0)
      eqn:Hnull; cbn.
    - repeat split; [apply Hhook | lia].
    - apply Z.eqb_neq in Hnull. repeat split; [exact Hnull | lia]. }
  destruct Hset as (Hset & Hfst & Hcount).
  assert (Hlater : forall n, calls n (snd first) = (repeat (fst first) n, snd first)).
  { intros n. subst calls. rewrite Hfst. now apply getDebugInfo_times_cached. }
  assert (Hall : forall n, calls (S n) c = (repeat (fst first) (S n), snd first)).
  { intros n. subst calls. cbn [BCProviderBase.getDebugInfo_times].
    fold getDebugInfo. fold first. destruct first as [d c1] eqn:Hfirst.
    cbn [fst snd] in *.
    change (BCProviderBase.getDebugInfo_times n c1)
      with (BCProviderBase.getDebugInfo_times
              (Provider0 := BCProviderBase.Counted_Provider) n c1).
    now rewrite (Hlater n). }
  repeat split.
  - subst getDebugInfo. rewrite (getDebugInfo_cached _ Hset), <- Hfst.
    now destruct first.
  - exact Hlater.
  - exact Hall.
  - intros [|n]; [cbn; lia | rewrite Hall; exact Hcount].
  - intros Hnull. subst first getDebugInfo. unfold BCProviderBase.getDebugInfo. cbn.
    apply Z.eqb_eq in Hnull. now rewrite Hnull.
  - rewrite Hfst. exact Hset.
Qed.

End BaseFacts.

(** ** The sample file *)

Section SampleFacts.
#[local] Existing Instance Sample.format.
#[local] Existing Instance Sample.outOfLine.

Lemma Sample_encoded : Encoded Sample.memory Sample.provider Sample.headers.
Proof.
  split; [reflexivity|].
  intros [|[|[|i]]] v Hv; cbn in Hv; try (injection Hv as <-).
  - apply backs_compact; [reflexivity | reflexivity | intros []; reflexivity].
  - apply backs_overflow; [reflexivity | reflexivity | intros []; reflexivity].
  - apply backs_compact; [reflexivity | reflexivity | intros []; reflexivity].
  - destruct i; discriminate.
Qed.

(** The examples the specification gives. *)
Example Sample_virtual_offsets :
  map (BCProviderFromBuffer.getVirtualOffsetForFunction Sample.memory Sample.provider)
    [0; 1; 2]
  = [Some 0; Some 50; Some 80].
Proof. reflexivity. Qed.

Example Sample_catch_targets :
  map (BCProviderFromBuffer.findCatchTargetOffset Sample.memory Sample.provider 0)
    [35; 70; 150]
  = [30; 10; -1].
Proof. reflexivity. Qed.

Example Sample_probe :
  map (BCProviderFromBuffer.isBytecodeStream_Buffer Sample.memory)
    [Sample.buffer; Sample.truncated; Sample.wrongMagic]
  = [true; false; false].
Proof. reflexivity. Qed.

(** Function 1, stored in the overflow shape, reports the values encoded for
    it. *)
Lemma getFunctionHeader_fields_roundtrip_witness :
  Encoded Sample.memory Sample.provider Sample.headers
  /\ exists h,
       BCProviderFromBuffer.getFunctionHeader Sample.memory Sample.provider 1 = Some h
       /\ (forall name,
             RuntimeFunctionHeader.get Sample.memory name h = Some (Sample.logical1 name))
       /\ (forall name,
             RuntimeFunctionHeader.get Sample.memory name h
             = if Z.testbit (RuntimeFunctionHeader.ptr_ h) 0
               then Some (large_field
                            (load_FunctionHeader Sample.memory
                               (RuntimeFunctionHeader.ptr_ h - 1)) name)
               else Some (small_field
                            (load_SmallFuncHeader Sample.memory
                               (RuntimeFunctionHeader.ptr_ h)) name)).
Proof.
  split; [exact Sample_encoded|].
  apply (getFunctionHeader_fields_roundtrip (i := 1) Sample_encoded);
    [cbn; lia | reflexivity].
Defined.

(** The second string goes through the overflow table. *)
Lemma getStringTableEntry_decode_witness :
  let entry := BCProviderFromBuffer.getStringTableEntry Sample.memory Sample.provider 1 in
  StringTableEntry.getOffset entry = 5 /\ StringTableEntry.getLength entry = 300.
Proof.
  destruct (getStringTableEntry_decode Sample.memory Sample.provider 1)
    as (_ & _ & _ & Hoverflow).
  apply Hoverflow. reflexivity.
Defined.

(** A view too short for the file header is refused. *)
Lemma createBCProviderFromBuffer_outcome_witness :
  malformed Sample.memory Sample.truncated
  /\ fst (BCProviderFromBuffer.createBCProviderFromBuffer Sample.memory Sample.truncated)
     = None
  /\ snd (BCProviderFromBuffer.createBCProviderFromBuffer Sample.memory Sample.truncated)
     <> EmptyString.
Proof.
  assert (Hshort : malformed Sample.memory Sample.truncated) by (left; cbn; lia).
  split; [exact Hshort|].
  destruct (createBCProviderFromBuffer_outcome Sample.memory Sample.truncated)
    as (_ & _ & _ & Hrefused).
  apply Hrefused, Hshort.
Defined.

(** A fault at 35 inside three nested handlers goes to the innermost one. *)
Lemma findCatchTargetOffset_last_match_witness :
  BCProviderBase.findCatchTargetOffset (Provider0 := Sample.asProvider)
    Sample.provider 0 35 = 30.
Proof.
  destruct (findCatchTargetOffset_last_match (impl := Sample.asProvider)
              Sample.provider 0 35) as [Hmatch _].
  apply (Hmatch [HBCExceptionHandlerInfo.make 0 100 10; HBCExceptionHandlerInfo.make 20 60 20]
           (HBCExceptionHandlerInfo.make 30 40 30) []).
  - reflexivity.
  - cbn. lia.
  - intros h' [].
  - cbn. lia.
Defined.

(** C5, the claim as stated, fails on function 1 of the sample: its large
    record lies at address 4696; the reference holds 4697, and the accessors
    read at 4696, where the 200 parameters are stored, not at 4697. *)
Lemma large_record_not_read_one_byte_after :
  flags_overflowed
    (load_SmallFuncHeader Sample.memory (slotAddress Sample.provider 1)) = true
  /\ largeAddress Sample.memory Sample.provider 1 = 4696
  /\ exists h,
       BCProviderFromBuffer.getFunctionHeader Sample.memory Sample.provider 1 = Some h
       /\ RuntimeFunctionHeader.asLarge h = Some 4696
       /\ RuntimeFunctionHeader.asLarge h <> Some (4696 + 1)
       /\ RuntimeFunctionHeader.get Sample.memory Sample.f_paramCount h = Some 200
       /\ large_field (load_FunctionHeader Sample.memory (4696 + 1)) Sample.f_paramCount
          = 0.
Proof.
  split; [reflexivity|]. split; [reflexivity|].
  exists {| RuntimeFunctionHeader.ptr_ := 4697 |}.
  repeat split; try reflexivity. discriminate.
Qed.

Lemma getFunctionHeader_large_tagging_witness :
  exists h,
    BCProviderFromBuffer.getFunctionHeader Sample.memory Sample.provider 1 = Some h
    /\ RuntimeFunctionHeader.ptr_ h = 4696 + 1
    /\ RuntimeFunctionHeader.isLarge h = true
    /\ RuntimeFunctionHeader.asLarge h = Some 4696
    /\ forall name,
         RuntimeFunctionHeader.get Sample.memory name h
         = Some (large_field (load_FunctionHeader Sample.memory 4696) name).
Proof.
  apply (getFunctionHeader_large_tagging Sample.memory Sample.provider 1); reflexivity.
Defined.

(** Function 2 follows 50 + 30 bytes of bytecode. *)
Lemma getVirtualOffsetForFunction_sum_witness :
  BCProviderFromBuffer.getVirtualOffsetForFunction Sample.memory Sample.provider 2
  = Some 80.
Proof.
  destruct (getVirtualOffsetForFunction_sum (i := 2) Sample_encoded) as (_ & Hexact & _).
  - cbn. lia.
  - apply Hexact. vm_compute. split; [discriminate | reflexivity].
Defined.

(** Three calls on a fresh sample provider run the hook once. *)
Lemma getDebugInfo_hook_at_most_once_witness :
  let fresh := {| BCProviderBase.obj := Sample.provider; BCProviderBase.hookCalls := 0 |} in
  let calls :=
    BCProviderBase.getDebugInfo_times
      (Provider0 := @BCProviderBase.Counted_Provider _ _ Sample.asProvider) in
  fst (calls 3%nat fresh) = [5896; 5896; 5896]
  /\ (BCProviderBase.hookCalls (snd (calls 3%nat fresh)) <= 1)%nat.
Proof.
  intros fresh calls.
  destruct (getDebugInfo_hook_at_most_once (impl := Sample.asProvider) fresh)
    as (_ & _ & Hall & Hcount & _).
  - vm_compute. discriminate.
  - split.
    + subst calls. rewrite (Hall 2%nat). reflexivity.
    + apply (Hcount 3%nat).
Defined.

(** The bytecode of function 1 starts 750 bytes into the buffer. *)
Lemma getBytecode_base_plus_offset_witness :
  BCProviderFromBuffer.getBytecode Sample.memory Sample.provider 1 = Some (4096 + 750).
Proof.
  destruct (getBytecode_base_plus_offset Sample.memory Sample.provider 1) as [_ Hencoded].
  apply (Hencoded Sample.headers Sample.logical1 Sample_encoded);
    [cbn; lia | reflexivity].
Defined.

(** The second string is the 300 bytes from offset 5 of the storage. *)
Lemma getStringRefFromID_decode_then_slice_witness :
  let ref := BCProviderFromBuffer.getStringRefFromID Sample.memory Sample.provider 1 in
  bytesAt Sample.memory (StringRef.Data ref) (StringRef.Length ref)
  = firstn 300 (skipn 5 (bytesAt Sample.memory 5000 305)).
Proof.
  destruct (getStringRefFromID_decode_then_slice Sample.memory Sample.provider 1)
    as (_ & _ & Hslice).
  apply Hslice; cbn; lia.
Defined.

End SampleFacts.

(** * Further properties of the provider *)

(** ** References and their tag *)

Lemma isLarge_odd (h : RuntimeFunctionHeader.t) :
  RuntimeFunctionHeader.isLarge h = Z.odd (RuntimeFunctionHeader.ptr_ h).
Proof. rewrite isLarge_testbit. apply Z.bit0_odd. Qed.

Lemma odd_plus_one (a : Z) : Z.odd (a + 1) = Z.even a.
Proof. change (a + 1) with (Z.succ a). apply Z.odd_succ. Qed.

Lemma even_false_odd (a : Z) : Z.even a = false <-> Z.odd a = true.
Proof. rewrite <- Z.negb_odd. destruct (Z.odd a); cbn; split; congruence. Qed.

(** X1.  Either constructor trips its assertion exactly on an odd record address:
    the compact one because the tag bit would be set, the large one because
    adding the tag byte would clear it. *)
Theorem constructors_assert_even (a : Z) :
  (RuntimeFunctionHeader.ofSmall a = None <-> Z.odd a = true)
  /\ (RuntimeFunctionHeader.ofLarge a = None <-> Z.odd a = true).
Proof.
  unfold RuntimeFunctionHeader.ofSmall, RuntimeFunctionHeader.ofLarge.
  rewrite !isLarge_odd. cbn [RuntimeFunctionHeader.ptr_].
  rewrite odd_plus_one, <- Z.negb_odd.
  destruct (Z.odd a); cbn; split; split; congruence.
Qed.

Section ReferenceFacts.
Context {fmt : FileFormat} (mem : Memory).

(** X2.  A reference built from a large record gives that record's address back
    through [asLarge], refuses [asSmall], and its accessors read the large
    layout there; a reference built from a compact slot gives the slot's
    address back through [asSmall], refuses [asLarge], and its accessors read
    the small layout there. *)
Theorem constructor_accessor_roundtrip (a : Z) (h : RuntimeFunctionHeader.t) :
  (RuntimeFunctionHeader.ofLarge a = Some h ->
   RuntimeFunctionHeader.asLarge h = Some a
   /\ RuntimeFunctionHeader.asSmall h = None
   /\ forall name,
        RuntimeFunctionHeader.get mem name h
        = Some (large_field (load_FunctionHeader mem a) name))
  /\ (RuntimeFunctionHeader.ofSmall a = Some h ->
      RuntimeFunctionHeader.asSmall h = Some a
      /\ RuntimeFunctionHeader.asLarge h = None
      /\ forall name,
           RuntimeFunctionHeader.get mem name h
           = Some (small_field (load_SmallFuncHeader mem a) name)).
Proof.
  split; intros Hbuilt.
  - unfold RuntimeFunctionHeader.ofLarge in Hbuilt.
    destruct (RuntimeFunctionHeader.isLarge {| RuntimeFunctionHeader.ptr_ := a + 1 |})
      eqn:Htag; cbn in Hbuilt; [|discriminate].
    injection Hbuilt as <-.
    unfold RuntimeFunctionHeader.asLarge, RuntimeFunctionHeader.asSmall,
      RuntimeFunctionHeader.get, RuntimeFunctionHeader.asLarge.
    rewrite Htag. cbn. replace (a + 1 - 1) with a by lia. repeat split.
  - unfold RuntimeFunctionHeader.ofSmall in Hbuilt.
    destruct (RuntimeFunctionHeader.isLarge {| RuntimeFunctionHeader.ptr_ := a |})
      eqn:Htag; cbn in Hbuilt; [discriminate|].
    injection Hbuilt as <-.
    unfold RuntimeFunctionHeader.asLarge, RuntimeFunctionHeader.asSmall,
      RuntimeFunctionHeader.get, RuntimeFunctionHeader.asSmall.
    rewrite Htag. cbn. repeat split.
Qed.

(** X3.  On any reference whatever, an accessor returns a value: the assertions of
    [asSmall] and [asLarge] cannot fire through it, since exactly one of the
    two views is available and the accessor takes that one. *)
Theorem accessor_never_asserts (name : field) (h : RuntimeFunctionHeader.t) :
  (exists value, RuntimeFunctionHeader.get mem name h = Some value)
  /\ (RuntimeFunctionHeader.asSmall h = None
      <-> RuntimeFunctionHeader.asLarge h = Some (RuntimeFunctionHeader.ptr_ h - 1))
  /\ (RuntimeFunctionHeader.asLarge h = None
      <-> RuntimeFunctionHeader.asSmall h = Some (RuntimeFunctionHeader.ptr_ h)).
Proof.
  unfold RuntimeFunctionHeader.get, RuntimeFunctionHeader.asSmall,
    RuntimeFunctionHeader.asLarge.
  destruct (RuntimeFunctionHeader.isLarge h); cbn; repeat split;
    try (eexists; reflexivity); intros; try reflexivity; discriminate.
Qed.

End ReferenceFacts.

(** X4.  A reference determines the record it was built from, and a reference to a
    compact slot is never a reference to a large record. *)
Theorem reference_identifies_record (a b : Z) (h h' : RuntimeFunctionHeader.t) :
  (RuntimeFunctionHeader.ofSmall a = Some h ->
   RuntimeFunctionHeader.ofSmall b = Some h -> a = b)
  /\ (RuntimeFunctionHeader.ofLarge a = Some h ->
      RuntimeFunctionHeader.ofLarge b = Some h -> a = b)
  /\ (RuntimeFunctionHeader.ofSmall a = Some h ->
      RuntimeFunctionHeader.ofLarge b = Some h' -> h <> h').
Proof.
  unfold RuntimeFunctionHeader.ofSmall, RuntimeFunctionHeader.ofLarge.
  repeat split.
  - destruct (RuntimeFunctionHeader.isLarge {| RuntimeFunctionHeader.ptr_ := a |});
      destruct (RuntimeFunctionHeader.isLarge {| RuntimeFunctionHeader.ptr_ := b |});
      cbn; try discriminate.
    intros Ha Hb. injection Ha as <-. now injection Hb.
  - destruct (RuntimeFunctionHeader.isLarge {| RuntimeFunctionHeader.ptr_ := a + 1 |});
      destruct (RuntimeFunctionHeader.isLarge {| RuntimeFunctionHeader.ptr_ := b + 1 |});
      cbn; try discriminate.
    intros Ha Hb. injection Ha as <-. injection Hb. lia.
  - destruct (RuntimeFunctionHeader.isLarge {| RuntimeFunctionHeader.ptr_ := a |}) eqn:Hsmall;
      destruct (RuntimeFunctionHeader.isLarge {| RuntimeFunctionHeader.ptr_ := b + 1 |})
        eqn:Hlarge; cbn; try discriminate.
    intros Ha Hb Hsame. injection Ha as <-. injection Hb as <-.
    rewrite Hsame in Hsmall. congruence.
Qed.

Lemma ofSmall_inv (a : Z) (h : RuntimeFunctionHeader.t) :
  RuntimeFunctionHeader.ofSmall a = Some h ->
  h = {| RuntimeFunctionHeader.ptr_ := a |} /\ RuntimeFunctionHeader.isLarge h = false.
Proof.
  unfold RuntimeFunctionHeader.ofSmall.
  destruct (RuntimeFunctionHeader.isLarge {| RuntimeFunctionHeader.ptr_ := a |}) eqn:Htag;
    cbn; [discriminate|].
  intros Hh. injection Hh as <-. now split.
Qed.

Lemma ofLarge_inv (a : Z) (h : RuntimeFunctionHeader.t) :
  RuntimeFunctionHeader.ofLarge a = Some h ->
  h = {| RuntimeFunctionHeader.ptr_ := a + 1 |} /\ RuntimeFunctionHeader.isLarge h = true.
Proof.
  unfold RuntimeFunctionHeader.ofLarge.
  destruct (RuntimeFunctionHeader.isLarge {| RuntimeFunctionHeader.ptr_ := a + 1 |}) eqn:Htag;
    cbn; [|discriminate].
  intros Hh. injection Hh as <-. now split.
Qed.

Lemma ofSmall_none_odd (a : Z) :
  RuntimeFunctionHeader.ofSmall a = None <-> Z.odd a = true.
Proof.
  unfold RuntimeFunctionHeader.ofSmall. rewrite isLarge_odd. cbn.
  destruct (Z.odd a); cbn; split; congruence.
Qed.

Lemma ofLarge_none_odd (a : Z) :
  RuntimeFunctionHeader.ofLarge a = None <-> Z.odd a = true.
Proof.
  unfold RuntimeFunctionHeader.ofLarge. rewrite isLarge_odd. cbn.
  rewrite odd_plus_one, <- Z.negb_odd.
  destruct (Z.odd a); cbn; split; congruence.
Qed.

Lemma isLarge_odd_even (a : Z) :
  RuntimeFunctionHeader.isLarge {| RuntimeFunctionHeader.ptr_ := a + 1 |} = true ->
  Z.even a = true.
Proof. rewrite isLarge_odd. cbn. now rewrite odd_plus_one. Qed.

Lemma isLarge_even_small (a : Z) :
  RuntimeFunctionHeader.isLarge {| RuntimeFunctionHeader.ptr_ := a |} = false ->
  Z.even a = true.
Proof. rewrite isLarge_odd. cbn. rewrite <- Z.negb_odd. now intros ->. Qed.

(** ** Function headers *)

Section FunctionHeaderFacts.
Context {fmt : FileFormat} (mem : Memory).

(** X5.  [getFunctionHeader] fails, on an assertion of the reference it builds,
    exactly when the record it resolves to lies at an odd address: the large
    record for an overflowed slot, the slot itself otherwise. *)
Theorem getFunctionHeader_fails_iff_odd (p : BCProviderFromBuffer.t) (functionID : Z) :
  BCProviderFromBuffer.getFunctionHeader mem p functionID = None
  <-> Z.odd (if flags_overflowed (load_SmallFuncHeader mem (slotAddress p functionID))
             then largeAddress mem p functionID
             else slotAddress p functionID) = true.
Proof.
  unfold BCProviderFromBuffer.getFunctionHeader.
  fold (slotAddress p functionID).
  destruct (flags_overflowed (load_SmallFuncHeader mem (slotAddress p functionID))).
  - fold (largeAddress mem p functionID). apply ofLarge_none_odd.
  - apply ofSmall_none_odd.
Qed.

(** X6.  [getBytecode] fails exactly when [getFunctionHeader] does: once there is a
    reference, reading its offset cannot fail. *)
Theorem getBytecode_fails_iff (p : BCProviderFromBuffer.t) (functionID : Z) :
  BCProviderFromBuffer.getBytecode mem p functionID = None
  <-> BCProviderFromBuffer.getFunctionHeader mem p functionID = None.
Proof.
  unfold BCProviderFromBuffer.getBytecode.
  destruct (BCProviderFromBuffer.getFunctionHeader mem p functionID) as [h|].
  - rewrite get_dispatch.
    destruct (Z.testbit (RuntimeFunctionHeader.ptr_ h) 0); split; discriminate.
  - split; reflexivity.
Qed.

(** X7.  Two function indices that get the same reference are backed by the same
    record: both compact and then the indices are equal, or both overflowed
    onto one large record.  (The slots have a non-zero size.) *)
Theorem getFunctionHeader_same_reference
    (p : BCProviderFromBuffer.t) (i j : Z) (h : RuntimeFunctionHeader.t) :
  sizeof_SmallFuncHeader <> 0 ->
  BCProviderFromBuffer.getFunctionHeader mem p i = Some h ->
  BCProviderFromBuffer.getFunctionHeader mem p j = Some h ->
  (flags_overflowed (load_SmallFuncHeader mem (slotAddress p i)) = false
   /\ flags_overflowed (load_SmallFuncHeader mem (slotAddress p j)) = false
   /\ i = j)
  \/ (flags_overflowed (load_SmallFuncHeader mem (slotAddress p i)) = true
      /\ flags_overflowed (load_SmallFuncHeader mem (slotAddress p j)) = true
      /\ largeAddress mem p i = largeAddress mem p j).
Proof.
  intros Hsize. unfold BCProviderFromBuffer.getFunctionHeader.
  fold (slotAddress p i). fold (slotAddress p j).
  destruct (flags_overflowed (load_SmallFuncHeader mem (slotAddress p i))) eqn:Hi;
    destruct (flags_overflowed (load_SmallFuncHeader mem (slotAddress p j))) eqn:Hj;
    fold (largeAddress mem p i); fold (largeAddress mem p j); intros Ha Hb.
  - right. apply ofLarge_inv in Ha as [-> _]. apply ofLarge_inv in Hb as [Hb _].
    injection Hb as Hb. repeat split. lia.
  - apply ofLarge_inv in Ha as [_ Ha]. apply ofSmall_inv in Hb as [_ Hb]. congruence.
  - apply ofSmall_inv in Ha as [_ Ha]. apply ofLarge_inv in Hb as [_ Hb]. congruence.
  - left. apply ofSmall_inv in Ha as [-> _]. apply ofSmall_inv in Hb as [Hb _].
    injection Hb as Hb. repeat split. unfold slotAddress in Hb.
    apply (Z.mul_reg_r _ _ sizeof_SmallFuncHeader); [exact Hsize | lia].
Qed.

(** X8.  A header is read from its own records only: a memory that holds the same
    compact slot and, for an overflowed slot, the same large record gives the
    same reference and the same value for every field, whatever else it
    holds. *)
Theorem header_read_is_local (mem' : Memory) (p : BCProviderFromBuffer.t) (i : Z) :
  load_SmallFuncHeader mem' (slotAddress p i) = load_SmallFuncHeader mem (slotAddress p i) ->
  (flags_overflowed (load_SmallFuncHeader mem (slotAddress p i)) = true ->
   load_FunctionHeader mem' (largeAddress mem p i)
   = load_FunctionHeader mem (largeAddress mem p i)) ->
  BCProviderFromBuffer.getFunctionHeader mem' p i
  = BCProviderFromBuffer.getFunctionHeader mem p i
  /\ forall h name,
       BCProviderFromBuffer.getFunctionHeader mem p i = Some h ->
       RuntimeFunctionHeader.get mem' name h = RuntimeFunctionHeader.get mem name h.
Proof.
  intros Hslot Hlarge.
  assert (Href : BCProviderFromBuffer.getFunctionHeader mem' p i
                 = BCProviderFromBuffer.getFunctionHeader mem p i).
  { unfold BCProviderFromBuffer.getFunctionHeader. fold (slotAddress p i).
    now rewrite Hslot. }
  split; [exact Href|].
  intros h name. unfold BCProviderFromBuffer.getFunctionHeader.
  fold (slotAddress p i).
  destruct (flags_overflowed (load_SmallFuncHeader mem (slotAddress p i))) eqn:Hflag.
  - fold (largeAddress mem p i). intros Hh. apply ofLarge_inv in Hh as [-> Htag].
    apply isLarge_odd_even in Htag.
    now rewrite !get_large, Hlarge.
  - intros Hh. apply ofSmall_inv in Hh as [-> Htag].
    apply isLarge_even_small in Htag.
    now rewrite !get_small, Hslot.
Qed.

(** X9.  The slot of a valid function index lies inside the view that
    [getSmallFunctionHeaders] returns, and the reference to a function in the
    compact shape points at that slot. *)
Theorem compact_slot_in_table (p : BCProviderFromBuffer.t) (i : Z) :
  0 <= i < BCProviderBase.functionCount_ (BCProviderFromBuffer.base_ p) ->
  0 <= sizeof_SmallFuncHeader ->
  let table := BCProviderFromBuffer.getSmallFunctionHeaders p in
  ArrayRef.data table <= slotAddress p i
  /\ slotAddress p i + sizeof_SmallFuncHeader <= viewEnd table sizeof_SmallFuncHeader
  /\ forall h,
       flags_overflowed (load_SmallFuncHeader mem (slotAddress p i)) = false ->
       BCProviderFromBuffer.getFunctionHeader mem p i = Some h ->
       RuntimeFunctionHeader.asSmall h = Some (slotAddress p i).
Proof.
  intros Hi Hsize table. split; [| split].
  - unfold slotAddress. cbn. nia.
  - unfold viewEnd, slotAddress. cbn. nia.
  - intros h Hflag. unfold BCProviderFromBuffer.getFunctionHeader.
    fold (slotAddress p i). rewrite Hflag.
    intros Hh. apply ofSmall_inv in Hh as [-> Htag].
    unfold RuntimeFunctionHeader.asSmall. now rewrite Htag.
Qed.

(** X10.  On an encoded buffer two valid functions have the same bytecode start
    exactly when the same offset was encoded for them, whatever shapes back
    them. *)
Theorem getBytecode_shared_iff_same_offset
    (p : BCProviderFromBuffer.t) (headers : list LogicalHeader)
    (i j : Z) (vi vj : LogicalHeader) :
  Encoded mem p headers ->
  0 <= i -> 0 <= j ->
  nth_error headers (Z.to_nat i) = Some vi ->
  nth_error headers (Z.to_nat j) = Some vj ->
  (BCProviderFromBuffer.getBytecode mem p i = BCProviderFromBuffer.getBytecode mem p j
   <-> vi offset = vj offset).
Proof.
  intros Henc Hi Hj Hvi Hvj.
  destruct (getFunctionHeader_backs (Encoded_backs Henc Hi Hvi)) as (hi & Hhi & Hgi).
  destruct (getFunctionHeader_backs (Encoded_backs Henc Hj Hvj)) as (hj & Hhj & Hgj).
  unfold BCProviderFromBuffer.getBytecode. rewrite Hhi, Hhj, Hgi, Hgj.
  split; [intros Hsame; injection Hsame; lia | intros ->; reflexivity].
Qed.

End FunctionHeaderFacts.

(** ** String table entries *)

Section StringTableFacts.
Context {fmt : FileFormat} {ool : BCProviderFromBuffer.OutOfLine} (mem : Memory).

(** X11.  For a valid string index the compact slot lies inside the view that
    [getSmallStringTableEntries] returns, while the overflow slot that an
    overflowed entry is decoded from lies at or behind the end of that view:
    the decoder never takes a compact slot for an overflow slot.  (Sizes and
    the unsigned offset field are non-negative.) *)
Theorem overflow_slot_behind_compact_table (p : BCProviderFromBuffer.t) (index : Z) :
  0 <= index < BCProviderFromBuffer.stringCount_ p ->
  0 <= sizeof_SmallStringTableEntry ->
  0 <= sizeof_OverflowStringTableEntry ->
  0 <= SmallStringTableEntry.offset
         (load_SmallStringTableEntry mem (stringSlotAddress p index)) ->
  let table := BCProviderFromBuffer.getSmallStringTableEntries p in
  let entry := BCProviderFromBuffer.getStringTableEntry mem p index in
  ArrayRef.data table <= stringSlotAddress p index
  /\ stringSlotAddress p index + sizeof_SmallStringTableEntry
     <= viewEnd table sizeof_SmallStringTableEntry
  /\ viewEnd table sizeof_SmallStringTableEntry <= overflowSlotAddress mem p index
  /\ (isOverflowed (load_SmallStringTableEntry mem (stringSlotAddress p index)) = true ->
      StringTableEntry.getOffset entry
      = OverflowStringTableEntry.offset
          (load_OverflowStringTableEntry mem (overflowSlotAddress mem p index))
      /\ StringTableEntry.getLength entry
         = OverflowStringTableEntry.length
             (load_OverflowStringTableEntry mem (overflowSlotAddress mem p index))).
Proof.
  intros Hindex Hsmall Hoverflow Hoffset table entry.
  split; [| split; [| split]].
  - unfold stringSlotAddress. cbn. nia.
  - unfold viewEnd, stringSlotAddress. cbn. nia.
  - unfold viewEnd, overflowSlotAddress. cbn. nia.
  - intros Hflag. subst entry. unfold BCProviderFromBuffer.getStringTableEntry.
    fold (stringSlotAddress p index). rewrite Hflag.
    fold (overflowSlotAddress mem p index).
    destruct (SmallStringTableEntry.isIdentifier
                (load_SmallStringTableEntry mem (stringSlotAddress p index)));
      split; reflexivity.
Qed.

(** X12.  A string is decoded from its own slots only: a memory that holds the same
    compact slot and, for an overflowed entry, the same overflow slot gives the
    same entry and the same view, whatever else it holds. *)
Theorem string_decode_is_local (mem' : Memory) (p : BCProviderFromBuffer.t) (index : Z) :
  load_SmallStringTableEntry mem' (stringSlotAddress p index)
  = load_SmallStringTableEntry mem (stringSlotAddress p index) ->
  (isOverflowed (load_SmallStringTableEntry mem (stringSlotAddress p index)) = true ->
   load_OverflowStringTableEntry mem' (overflowSlotAddress mem p index)
   = load_OverflowStringTableEntry mem (overflowSlotAddress mem p index)) ->
  BCProviderFromBuffer.getStringTableEntry mem' p index
  = BCProviderFromBuffer.getStringTableEntry mem p index
  /\ BCProviderFromBuffer.getStringRefFromID mem' p index
     = BCProviderFromBuffer.getStringRefFromID mem p index.
Proof.
  intros Hslot Hoverflow.
  assert (Hentry : BCProviderFromBuffer.getStringTableEntry mem' p index
                   = BCProviderFromBuffer.getStringTableEntry mem p index).
  { unfold BCProviderFromBuffer.getStringTableEntry.
    fold (stringSlotAddress p index). rewrite Hslot.
    destruct (isOverflowed (load_SmallStringTableEntry mem (stringSlotAddress p index)))
      eqn:Hflag; [|reflexivity].
    fold (overflowSlotAddress mem p index).
    now rewrite (Hoverflow eq_refl). }
  split; [exact Hentry|].
  unfold BCProviderFromBuffer.getStringRefFromID, BCProviderBase.getStringRefFromID.
  cbn [BCProviderBase.getStringTableEntry BCProviderFromBuffer.FromBuffer_Provider].
  now rewrite Hentry.
Qed.

(** ** Probing *)

(** X13.  A view shorter than the file header is never taken for bytecode, whatever
    the memory holds; a view taken for bytecode still is when more bytes
    follow it. *)
Theorem isBytecodeStream_size (data size size' : Z) :
  (size < sizeof_BytecodeFileHeader ->
   BCProviderFromBuffer.isBytecodeStream mem (ArrayRef.make data size) = false)
  /\ (BCProviderFromBuffer.isBytecodeStream mem (ArrayRef.make data size) = true ->
      size <= size' ->
      BCProviderFromBuffer.isBytecodeStream mem (ArrayRef.make data size') = true).
Proof.
  unfold BCProviderFromBuffer.isBytecodeStream. cbn. split.
  - intros Hshort. apply andb_false_iff. left. rewrite Z.geb_leb. apply Z.leb_gt. lia.
  - rewrite !andb_true_iff, !Z.geb_le. intros [Hsize Hmagic] Hgrow. split; [lia | exact Hmagic].
Qed.

End StringTableFacts.

(** ** Debug info when the hook builds nothing *)

Section LazyDebugInfo.
Context {fmt : FileFormat} {P : Type} {impl : BCProviderBase.Provider P}.

Lemma getDebugInfo_null (c : BCProviderBase.Counted P) :
  BCProviderBase.debugInfo_ (BCProviderBase.base (BCProviderBase.obj c)) = 0 ->
  BCProviderBase.getDebugInfo (Provider0 := BCProviderBase.Counted_Provider) c
  = (BCProviderBase.debugInfo_
       (BCProviderBase.base (BCProviderBase.createDebugInfo (BCProviderBase.obj c))),
     {| BCProviderBase.obj := BCProviderBase.createDebugInfo (BCProviderBase.obj c);
        BCProviderBase.hookCalls := S (BCProviderBase.hookCalls c) |}).
Proof.
  intros Hnull. unfold BCProviderBase.getDebugInfo. cbn.
  apply Z.eqb_eq in Hnull. now rewrite Hnull.
Qed.

(** X14.  If the construction hook leaves the cached pointer null, nothing is
    cached: each of [n] calls in a row runs the hook again and returns null. *)
Theorem getDebugInfo_hook_leaving_null (n : nat) (c : BCProviderBase.Counted P) :
  (forall q : P,
      BCProviderBase.debugInfo_ (BCProviderBase.base q) = 0 ->
      BCProviderBase.debugInfo_ (BCProviderBase.base (BCProviderBase.createDebugInfo q)) = 0) ->
  BCProviderBase.debugInfo_ (BCProviderBase.base (BCProviderBase.obj c)) = 0 ->
  let after :=
    BCProviderBase.getDebugInfo_times (Provider0 := BCProviderBase.Counted_Provider) n c in
  fst after = repeat 0 n
  /\ BCProviderBase.hookCalls (snd after) = (BCProviderBase.hookCalls c + n)%nat
  /\ BCProviderBase.debugInfo_ (BCProviderBase.base (BCProviderBase.obj (snd after))) = 0.
Proof.
  intros Hhook. revert c. induction n as [|n IH]; intros c Hnull after.
  - subst after. cbn. repeat split; [lia | exact Hnull].
  - subst after. cbn [BCProviderBase.getDebugInfo_times].
    rewrite (getDebugInfo_null _ Hnull).
    set (c1 := {| BCProviderBase.obj := BCProviderBase.createDebugInfo (BCProviderBase.obj c);
                  BCProviderBase.hookCalls := S (BCProviderBase.hookCalls c) |}).
    specialize (IH c1 (Hhook _ Hnull)). cbv zeta in IH.
    destruct (BCProviderBase.getDebugInfo_times n c1) as [ds c2].
    cbn [fst snd] in *. destruct IH as (Hds & Hcalls & Hstill).
    repeat split.
    + cbn. rewrite Hds. f_equal. exact (Hhook _ Hnull).
    + rewrite Hcalls. cbn. lia.
    + exact Hstill.
Qed.

End LazyDebugInfo.

(** ** The further properties on the sample file *)

Section SampleFurther.
#[local] Existing Instance Sample.format.
#[local] Existing Instance Sample.outOfLine.

(** The large record of function 1, at 4696. *)
Lemma constructor_accessor_roundtrip_witness :
  RuntimeFunctionHeader.asLarge {| RuntimeFunctionHeader.ptr_ := 4697 |} = Some 4696
  /\ RuntimeFunctionHeader.asSmall {| RuntimeFunctionHeader.ptr_ := 4697 |} = None
  /\ forall name,
       RuntimeFunctionHeader.get Sample.memory name {| RuntimeFunctionHeader.ptr_ := 4697 |}
       = Some (Sample.logical1 name).
Proof.
  destruct (constructor_accessor_roundtrip Sample.memory 4696
              {| RuntimeFunctionHeader.ptr_ := 4697 |}) as [Hlarge _].
  apply Hlarge. reflexivity.
Defined.

(** The slot of function 0 and the large record of function 1. *)
Lemma reference_identifies_record_witness :
  {| RuntimeFunctionHeader.ptr_ := 4224 |} <> {| RuntimeFunctionHeader.ptr_ := 4697 |}.
Proof.
  destruct (reference_identifies_record 4224 4696
              {| RuntimeFunctionHeader.ptr_ := 4224 |}
              {| RuntimeFunctionHeader.ptr_ := 4697 |}) as (_ & _ & Hdistinct).
  apply Hdistinct; reflexivity.
Defined.

Lemma getFunctionHeader_same_reference_witness :
  (flags_overflowed (load_SmallFuncHeader Sample.memory (slotAddress Sample.provider 2))
   = false
   /\ flags_overflowed (load_SmallFuncHeader Sample.memory (slotAddress Sample.provider 2))
      = false
   /\ 2 = 2)
  \/ (flags_overflowed (load_SmallFuncHeader Sample.memory (slotAddress Sample.provider 2))
      = true
      /\ flags_overflowed (load_SmallFuncHeader Sample.memory (slotAddress Sample.provider 2))
         = true
      /\ largeAddress Sample.memory Sample.provider 2
         = largeAddress Sample.memory Sample.provider 2).
Proof.
  apply (getFunctionHeader_same_reference Sample.memory Sample.provider 2 2
           (h := {| RuntimeFunctionHeader.ptr_ := 4256 |}));
    [discriminate | reflexivity | reflexivity].
Defined.

(** Function 1 reads the same from a memory that keeps only its two records. *)
Lemma header_read_is_local_witness :
  BCProviderFromBuffer.getFunctionHeader Sample.memoryHeader1 Sample.provider 1
  = BCProviderFromBuffer.getFunctionHeader Sample.memory Sample.provider 1
  /\ forall h name,
       BCProviderFromBuffer.getFunctionHeader Sample.memory Sample.provider 1 = Some h ->
       RuntimeFunctionHeader.get Sample.memoryHeader1 name h
       = RuntimeFunctionHeader.get Sample.memory name h.
Proof.
  apply (header_read_is_local Sample.memory Sample.memoryHeader1 Sample.provider 1);
    reflexivity.
Defined.

Lemma compact_slot_in_table_witness :
  4224 <= slotAddress Sample.provider 2
  /\ slotAddress Sample.provider 2 + 16 <= 4224 + 3 * 16.
Proof.
  destruct (compact_slot_in_table Sample.memory Sample.provider (i := 2))
    as (Hlow & Hhigh & _).
  - cbn. lia.
  - cbn. lia.
  - split; [exact Hlow | exact Hhigh].
Defined.

(** Functions 0 and 2 have different offsets and different bytecode starts. *)
Lemma getBytecode_shared_iff_same_offset_witness :
  BCProviderFromBuffer.getBytecode Sample.memory Sample.provider 0
  = BCProviderFromBuffer.getBytecode Sample.memory Sample.provider 2
  <-> Sample.logical0 offset = Sample.logical2 offset.
Proof.
  apply (getBytecode_shared_iff_same_offset (i := 0) (j := 2) Sample_encoded);
    [lia | lia | reflexivity | reflexivity].
Defined.

(** String 1: compact slot at 4404 inside [4400, 4408), overflow slot at 4408. *)
Lemma overflow_slot_behind_compact_table_witness :
  4400 <= stringSlotAddress Sample.provider 1
  /\ stringSlotAddress Sample.provider 1 + 4 <= 4408
  /\ 4408 <= overflowSlotAddress Sample.memory Sample.provider 1.
Proof.
  destruct (overflow_slot_behind_compact_table Sample.memory Sample.provider (index := 1))
    as (Hlow & Hhigh & Hbehind & _).
  - cbn. lia.
  - cbn. lia.
  - cbn. lia.
  - cbn. lia.
  - repeat split; [exact Hlow | exact Hhigh | exact Hbehind].
Defined.

Lemma string_decode_is_local_witness :
  BCProviderFromBuffer.getStringTableEntry Sample.memoryElsewhere Sample.provider 1
  = BCProviderFromBuffer.getStringTableEntry Sample.memory Sample.provider 1
  /\ BCProviderFromBuffer.getStringRefFromID Sample.memoryElsewhere Sample.provider 1
     = BCProviderFromBuffer.getStringRefFromID Sample.memory Sample.provider 1.
Proof.
  apply (string_decode_is_local Sample.memory Sample.memoryElsewhere Sample.provider 1);
    reflexivity.
Defined.

(** The sample buffer followed by 2048 more bytes. *)
Lemma isBytecodeStream_size_witness :
  BCProviderFromBuffer.isBytecodeStream Sample.memory (ArrayRef.make 4096 4096) = true.
Proof.
  destruct (isBytecodeStream_size Sample.memory 4096 2048 4096) as [_ Hgrow].
  apply Hgrow; [reflexivity | lia].
Defined.

(** Three calls with a hook that builds nothing run it three times. *)
Lemma getDebugInfo_hook_leaving_null_witness :
  let fresh := {| BCProviderBase.obj := Sample.provider; BCProviderBase.hookCalls := 0 |} in
  let after :=
    BCProviderBase.getDebugInfo_times
      (Provider0 := @BCProviderBase.Counted_Provider _ _ Sample.neverBuilds) 3%nat fresh in
  fst after = [0; 0; 0] /\ BCProviderBase.hookCalls (snd after) = 3%nat.
Proof.
  intros fresh after.
  destruct (getDebugInfo_hook_leaving_null (impl := Sample.neverBuilds) 3%nat fresh)
    as (Hnull & Hcalls & _).
  - intros q Hq. exact Hq.
  - reflexivity.
  - split; [exact Hnull | exact Hcalls].
Defined.

End SampleFurther.
